(** * kminion: the measurement core of [minion/service.go]

    A shallow embedding of the bucket sizer, the TTL cache, the
    compatibility gate and the end-to-end metric callbacks of
    [minion.Service], with the properties of its specification. *)

From Stdlib Require Import ZArith QArith Qpower Lia List Bool.
From Stdlib Require Import Floats.SpecFloat.
From stdpp Require Import gmap strings.

Local Open Scope Z_scope.

(** ** Go values used by the service *)

(** Outcome of a Go call that may panic. *)
Inductive outcome (A : Type) : Type :=
| Ret (a : A)
| Panic (msg : string).
Arguments Ret {A} a.
Arguments Panic {A} msg.

Definition bind {A B : Type} (o : outcome A) (k : A -> outcome B) : outcome B :=
  match o with
  | Ret a => k a
  | Panic msg => Panic msg
  end.

(** Go [error] values; [Errorf_w format err] is [fmt.Errorf(format, err)]
    for a format that wraps [err] with its one verb. *)
Inductive error : Type :=
| ErrorString (msg : string)
| Errorf_w (format : string) (err : error).

(** [int] and [int64] on a 64-bit target: two's complement wrap-around. *)
Definition min_int64 : Z := - 2 ^ 63.
Definition max_int64 : Z := 2 ^ 63 - 1.
Definition wrap64 (z : Z) : Z := (z + 2 ^ 63) mod 2 ^ 64 - 2 ^ 63.

(** ** float64 *)

Module Float64.

(** IEEE 754 binary64, on the Standard Library's specification of
    floating-point arithmetic. *)
Definition prec : Z := 53.
Definition emax : Z := 1024.

Definition float64 : Type := spec_float.

Definition add : float64 -> float64 -> float64 := SFadd prec emax.
Definition mul : float64 -> float64 -> float64 := SFmul prec emax.
Definition div : float64 -> float64 -> float64 := SFdiv prec emax.
Definition ltb : float64 -> float64 -> bool := SFltb.
Definition leb : float64 -> float64 -> bool := SFleb.

(** The conversion [float64(z)] of an integer: round to nearest even. *)
Definition of_int (z : Z) : float64 := binary_normalize prec emax z 0 false.

(** A decimal constant [n / d] of the source text, correctly rounded. *)
Definition of_ratio (n d : Z) : float64 := div (of_int n) (of_int d).

(** The conversion [int(x)]: truncation towards zero.  Where the value
    does not fit, Go leaves the result to the implementation; amd64 and
    arm64 both give the smallest int64. *)
Definition to_int (x : float64) : Z :=
  match x with
  | S754_zero _ => 0
  | S754_finite s m e =>
      let t := cond_Zopp s (Z.shiftl (Zpos m) e) in
      if (min_int64 <=? t) && (t <=? max_int64) then t else min_int64
  | S754_infinity _ | S754_nan => min_int64
  end.

(** The binary exponent of the finite non-zero value [m * 2^e]. *)
Definition ilogb (m : positive) (e : Z) : Z := Zpos (digits2_pos m) + e - 1.

(** [math.Logb]. *)
Definition Logb (x : float64) : float64 :=
  match x with
  | S754_zero _ => S754_infinity true
  | S754_infinity _ => S754_infinity false
  | S754_nan => S754_nan
  | S754_finite _ m e => of_int (ilogb m e)
  end.

(** The exact value of a finite float, as a rational. *)
Definition to_Q (x : float64) : option Q :=
  match x with
  | S754_zero _ => Some 0%Q
  | S754_finite s m e => Some (inject_Z (cond_Zopp s (Zpos m)) * 2 ^ e)%Q
  | S754_infinity _ | S754_nan => None
  end.

End Float64.

Import Float64.

(** ** time.Duration: a count of nanoseconds in an int64 *)

Definition Millisecond : Z := 1000000.
Definition Second : Z := 1000000000.

(** [Duration.Milliseconds]: integer division, truncated towards zero. *)
Definition Milliseconds (d : Z) : Z := Z.quot d Millisecond.

(** [Duration.Seconds]. *)
Definition Seconds (d : Z) : float64 :=
  let sec := Z.quot d Second in
  let nsec := Z.rem d Second in
  add (of_int sec) (div (of_int nsec) (of_int 1000000000)).

(** ** The metrics sink (prometheus) *)

Module prometheus.

(** [ExponentialBuckets]'s loop: [buckets[i] = start; start *= factor]. *)
Fixpoint fill (start factor : float64) (n : nat) : list float64 :=
  match n with
  | O => []
  | S n' => start :: fill (mul start factor) factor n'
  end.

Definition ExponentialBuckets (start factor : float64) (count : Z)
  : outcome (list float64) :=
  if count <? 1 then Panic "ExponentialBuckets needs a positive count"
  else if leb start (of_int 0) then Panic "ExponentialBuckets needs a positive start value"
  else if leb factor (of_int 1) then Panic "ExponentialBuckets needs a factor greater than 1"
  else Ret (fill start factor (Z.to_nat count)).

(** A counter is the number of [Inc] calls it has received. *)
Definition Counter : Type := Z.
Definition Inc (c : Counter) : Counter := c + 1.

(** A histogram keeps its bucket boundaries and the values observed,
    oldest first. *)
Record Histogram : Type := mkHistogram {
  Buckets : list float64;
  observations : list float64
}.
Definition Observe (h : Histogram) (v : float64) : Histogram :=
  {| Buckets := Buckets h; observations := observations h ++ [v] |}.

End prometheus.

(** ** The bucket sizer *)

Definition createHistogramBuckets (maxLatency : Z) : outcome (list float64) :=
  let latencyCount := Logb (of_int (Z.quot (Milliseconds maxLatency) 10)) in
  let count := wrap64 (to_int latencyCount + 3) in
  prometheus.ExponentialBuckets (of_ratio 5 1000) (of_int 2) count.

(** ** Definitions used in the statements about float64 *)

(** The mantissa of [p] shifted to 53 bits, and the exponent that goes
    with it. *)
Definition normal_mantissa (p : positive) : positive :=
  match (53 - Zpos (digits2_pos p))%Z with
  | Zpos d => Pos.iter xO p d
  | _ => p
  end.

(** The mantissa of the float64 constant 0.005. *)
Definition floor_mantissa : positive := 5764607523034235.

(** [y] is [x] doubled, exactly: both are finite and the values are in
    the ratio 2. *)
Definition exact_double (x y : float64) : Prop :=
  exists qx qy, to_Q x = Some qx /\ to_Q y = Some qy /\ (qy == 2 * qx)%Q.

(** ** Declarations the service takes from the rest of the program *)

(** The outcome monad, for stdpp's [x ← m; k]. *)
#[global] Instance outcome_ret : MRet outcome := @Ret.
#[global] Instance outcome_bind : MBind outcome := fun A B k o => bind o k.

(** The broker client: [kmsg] and [kversion] of franz-go, and the scrape
    mode constant of the configuration package. *)
Class Kafka : Type := {
  ApiVersionsResponse : Type;
  Versions : Type;
  FromApiVersionsResponse : ApiVersionsResponse -> Versions;
  HasKey : Versions -> Z -> bool;
  (** [kmsg.NewDescribeLogDirsRequest().Key()] *)
  DescribeLogDirsRequest_Key : Z;
  ConsumerGroupScrapeModeOffsetsTopic : string
}.

(** The fields of [Config] that [service.go] reads or writes. *)
Record Config : Type := mkConfig {
  ConsumerGroups_ScrapeMode : string;
  LogDirs_Enabled : bool;
  EndToEnd_Enabled : bool;
  EndToEnd_Producer_AckSla : Z;
  EndToEnd_Consumer_RoundtripSla : Z;
  EndToEnd_Consumer_CommitSla : Z
}.

Definition set_LogDirs_Enabled (b : bool) (c : Config) : Config :=
  {| ConsumerGroups_ScrapeMode := ConsumerGroups_ScrapeMode c;
     LogDirs_Enabled := b;
     EndToEnd_Enabled := EndToEnd_Enabled c;
     EndToEnd_Producer_AckSla := EndToEnd_Producer_AckSla c;
     EndToEnd_Consumer_RoundtripSla := EndToEnd_Consumer_RoundtripSla c;
     EndToEnd_Consumer_CommitSla := EndToEnd_Consumer_CommitSla c |}.

(** Calling a method through a nil interface value panics. *)
Definition nil_dereference : string :=
  "runtime error: invalid memory address or nil pointer dereference".

Definition deref {A : Type} (p : option A) : outcome A :=
  match p with
  | Some a => Ret a
  | None => Panic nil_dereference
  end.

(** ** The service *)

Section Service.

(** The cached payloads, [interface{}] in the source. *)
Context {Value : Type}.
Context `{Kafka}.

(** [Service].  The logger is the list of warnings written so far; the
    compiled regular expressions, the Kafka client and the storage are
    handles that [service.go] only passes on. *)
Record Service : Type := mkService {
  Cfg : Config;
  logger : list string;
  cache : gmap string Value;
  minionID : string;
  lastRoundtripTimestamp : float64;
  endToEndMessagesProduced : option prometheus.Counter;
  endToEndMessagesAcked : option prometheus.Counter;
  endToEndMessagesReceived : option prometheus.Counter;
  endToEndMessagesCommitted : option prometheus.Counter;
  endToEndAckLatency : option prometheus.Histogram;
  endToEndRoundtripLatency : option prometheus.Histogram;
  endToEndCommitLatency : option prometheus.Histogram
}.

Definition set_Cfg (c : Config) (s : Service) : Service :=
  mkService c (logger s) (cache s) (minionID s) (lastRoundtripTimestamp s)
    (endToEndMessagesProduced s) (endToEndMessagesAcked s)
    (endToEndMessagesReceived s) (endToEndMessagesCommitted s)
    (endToEndAckLatency s) (endToEndRoundtripLatency s) (endToEndCommitLatency s).

Definition set_logger (l : list string) (s : Service) : Service :=
  mkService (Cfg s) l (cache s) (minionID s) (lastRoundtripTimestamp s)
    (endToEndMessagesProduced s) (endToEndMessagesAcked s)
    (endToEndMessagesReceived s) (endToEndMessagesCommitted s)
    (endToEndAckLatency s) (endToEndRoundtripLatency s) (endToEndCommitLatency s).

Definition set_cache (m : gmap string Value) (s : Service) : Service :=
  mkService (Cfg s) (logger s) m (minionID s) (lastRoundtripTimestamp s)
    (endToEndMessagesProduced s) (endToEndMessagesAcked s)
    (endToEndMessagesReceived s) (endToEndMessagesCommitted s)
    (endToEndAckLatency s) (endToEndRoundtripLatency s) (endToEndCommitLatency s).

Definition set_endToEndMessagesAcked (c : option prometheus.Counter) (s : Service) : Service :=
  mkService (Cfg s) (logger s) (cache s) (minionID s) (lastRoundtripTimestamp s)
    (endToEndMessagesProduced s) c
    (endToEndMessagesReceived s) (endToEndMessagesCommitted s)
    (endToEndAckLatency s) (endToEndRoundtripLatency s) (endToEndCommitLatency s).

Definition set_endToEndMessagesReceived (c : option prometheus.Counter) (s : Service) : Service :=
  mkService (Cfg s) (logger s) (cache s) (minionID s) (lastRoundtripTimestamp s)
    (endToEndMessagesProduced s) (endToEndMessagesAcked s)
    c (endToEndMessagesCommitted s)
    (endToEndAckLatency s) (endToEndRoundtripLatency s) (endToEndCommitLatency s).

Definition set_endToEndMessagesCommitted (c : option prometheus.Counter) (s : Service) : Service :=
  mkService (Cfg s) (logger s) (cache s) (minionID s) (lastRoundtripTimestamp s)
    (endToEndMessagesProduced s) (endToEndMessagesAcked s)
    (endToEndMessagesReceived s) c
    (endToEndAckLatency s) (endToEndRoundtripLatency s) (endToEndCommitLatency s).

Definition set_endToEndAckLatency (h : option prometheus.Histogram) (s : Service) : Service :=
  mkService (Cfg s) (logger s) (cache s) (minionID s) (lastRoundtripTimestamp s)
    (endToEndMessagesProduced s) (endToEndMessagesAcked s)
    (endToEndMessagesReceived s) (endToEndMessagesCommitted s)
    h (endToEndRoundtripLatency s) (endToEndCommitLatency s).

Definition set_endToEndRoundtripLatency (h : option prometheus.Histogram) (s : Service) : Service :=
  mkService (Cfg s) (logger s) (cache s) (minionID s) (lastRoundtripTimestamp s)
    (endToEndMessagesProduced s) (endToEndMessagesAcked s)
    (endToEndMessagesReceived s) (endToEndMessagesCommitted s)
    (endToEndAckLatency s) h (endToEndCommitLatency s).

Definition set_endToEndCommitLatency (h : option prometheus.Histogram) (s : Service) : Service :=
  mkService (Cfg s) (logger s) (cache s) (minionID s) (lastRoundtripTimestamp s)
    (endToEndMessagesProduced s) (endToEndMessagesAcked s)
    (endToEndMessagesReceived s) (endToEndMessagesCommitted s)
    (endToEndAckLatency s) (endToEndRoundtripLatency s) h.

(** [promauto.NewCounter] and [promauto.NewHistogram] register the
    metric on the default registry and panic where the registry refuses it
    (an invalid name, a metric that is registered already).
    [registration namespace name] is the message of that panic, if any; a
    metric that is registered starts at 0, or without observations. *)
Definition makeCounter (registration : string -> string -> option string)
  (metricNamespace name : string) : outcome (option prometheus.Counter) :=
  match registration metricNamespace name with
  | Some msg => Panic msg
  | None => mret (Some 0)
  end.

(** [makeHistogram] of [NewService]: the boundaries are computed first,
    as an argument of the constructor. *)
Definition makeHistogram (registration : string -> string -> option string)
  (metricNamespace name : string) (maxLatency : Z)
  : outcome (option prometheus.Histogram) :=
  buckets ← createHistogramBuckets maxLatency;
  match registration metricNamespace name with
  | Some msg => Panic msg
  | None => mret (Some (prometheus.mkHistogram buckets []))
  end.

(** [NewService].  [storageErr] is the error of [newStorage], if any,
    [id] the string [uuid.NewString] draws, and [registration] the answer
    of the metrics registry. *)
Definition NewService (cfg : Config) (storageErr : option error) (id : string)
  (metricNamespace : string) (registration : string -> string -> option string)
  : outcome (Service + error) :=
  match storageErr with
  | Some err => mret (inr (Errorf_w "failed to create storage: %w" err))
  | None =>
      let service :=
        mkService cfg [] ∅ id (of_int 0) None None None None None None None in
      if EndToEnd_Enabled cfg then
        let makeCounter := makeCounter registration metricNamespace in
        let makeHistogram := makeHistogram registration metricNamespace in
        produced ← makeCounter "messages_produced_total";
        acked ← makeCounter "messages_acked_total";
        received ← makeCounter "messages_received_total";
        committed ← makeCounter "messages_committed_total";
        ackLatency ← makeHistogram "produce_latency_seconds" (EndToEnd_Producer_AckSla cfg);
        roundtripLatency ←
          makeHistogram "roundtrip_latency_seconds" (EndToEnd_Consumer_RoundtripSla cfg);
        commitLatency ← makeHistogram "commit_latency_seconds" (EndToEnd_Consumer_CommitSla cfg);
        mret (inl (mkService cfg [] ∅ id (of_int 0)
                     produced acked received committed
                     ackLatency roundtripLatency commitLatency))
      else mret (inl service)
  end.

(** [ensureCompatibility].  [versionsRes] is what [GetAPIVersions]
    answers within its 15 seconds: the response, or an error. *)
Definition ensureCompatibility (s : Service) (versionsRes : ApiVersionsResponse + error)
  : Service * option error :=
  match versionsRes with
  | inr err => (s, Some (Errorf_w "kafka api versions couldn't be fetched: %w" err))
  | inl res =>
      let versions := FromApiVersionsResponse res in
      if LogDirs_Enabled (Cfg s) then
        let isSupported := HasKey versions DescribeLogDirsRequest_Key in
        if negb isSupported then
          let s := set_logger (logger s ++
            ["describing log dirs is enabled, but it is not supported because your Kafka cluster version is too old. feature will be disabled"]) s in
          (set_Cfg (set_LogDirs_Enabled false (Cfg s)) s, None)
        else (s, None)
      else (s, None)
  end.

(** The background tasks that [Start] launches. *)
Inductive task : Type :=
| startConsumingOffsets
| initEndToEnd.

(** [Start]. *)
Definition Start (s : Service) (versionsRes : ApiVersionsResponse + error)
  : Service * list task * option error :=
  match ensureCompatibility s versionsRes with
  | (s, Some err) =>
      (s, [], Some (Errorf_w "failed to check feature compatibility against Kafka: %w" err))
  | (s, None) =>
      let t1 := if String.eqb (ConsumerGroups_ScrapeMode (Cfg s)) ConsumerGroupScrapeModeOffsetsTopic
                then [startConsumingOffsets] else [] in
      let t2 := if EndToEnd_Enabled (Cfg s) then [initEndToEnd] else [] in
      (s, t1 ++ t2, None)
  end.

(** *** The cache *)

Definition getCachedItem (s : Service) (key : string) : option Value :=
  cache s !! key.

Definition deleteCachedItem (s : Service) (key : string) : Service :=
  set_cache (delete key (cache s)) s.

(** The service together with the clock (in nanoseconds) and the
    goroutines of [setCachedItem] that are in [time.Sleep]: for each, the
    time at which it wakes up and the key it will delete. *)
Record World : Type := mkWorld {
  svc : Service;
  now : Z;
  sleeping : list (Z * string)
}.

(** [setCachedItem]: the goroutine is started under the lock, so its
    deletion comes after the store, whatever the timeout. *)
Definition setCachedItem (w : World) (key : string) (val : Value) (timeout : Z) : World :=
  {| svc := set_cache (<[key := val]> (cache (svc w))) (svc w);
     now := now w;
     sleeping := sleeping w ++ [(now w + timeout, key)] |}.

(** The goroutines whose sleep is over at time [t] run, in the order they
    were started. *)
Fixpoint wake (t : Z) (sl : list (Z * string)) (s : Service)
  : Service * list (Z * string) :=
  match sl with
  | [] => (s, [])
  | (due, key) :: sl' =>
      if due <=? t then wake t sl' (deleteCachedItem s key)
      else let '(s', rest) := wake t sl' s in (s', (due, key) :: rest)
  end.

(** Time passes until [t]. *)
Definition advance (t : Z) (w : World) : World :=
  let t := Z.max t (now w) in
  let '(s, rest) := wake t (sleeping w) (svc w) in
  {| svc := s; now := t; sleeping := rest |}.

(** *** The end-to-end callbacks *)

Definition onAck (s : Service) (partitionId : Z) (duration : Z) : outcome Service :=
  c ← deref (endToEndMessagesAcked s);
  let s := set_endToEndMessagesAcked (Some (prometheus.Inc c)) s in
  h ← deref (endToEndAckLatency s);
  mret (set_endToEndAckLatency (Some (prometheus.Observe h (Seconds duration))) s).

Definition onRoundtrip (s : Service) (partitionId : Z) (duration : Z) : outcome Service :=
  if duration >? EndToEnd_Consumer_RoundtripSla (Cfg s) then mret s
  else
    c ← deref (endToEndMessagesReceived s);
    let s := set_endToEndMessagesReceived (Some (prometheus.Inc c)) s in
    h ← deref (endToEndRoundtripLatency s);
    mret (set_endToEndRoundtripLatency (Some (prometheus.Observe h (Seconds duration))) s).

Definition onOffsetCommit (s : Service) (partitionId : Z) (duration : Z) : outcome Service :=
  h ← deref (endToEndCommitLatency s);
  let s := set_endToEndCommitLatency (Some (prometheus.Observe h (Seconds duration))) s in
  if duration >? EndToEnd_Consumer_CommitSla (Cfg s) then mret s
  else
    c ← deref (endToEndMessagesCommitted s);
    mret (set_endToEndMessagesCommitted (Some (prometheus.Inc c)) s).

(** *** Runs of the service *)

(** The calls that [service.go] offers, and the passing of time. *)
Inductive call : Type :=
| CallStart (versionsRes : ApiVersionsResponse + error)
| CallEnsureCompatibility (versionsRes : ApiVersionsResponse + error)
| CallGetCachedItem (key : string)
| CallSetCachedItem (key : string) (val : Value) (timeout : Z)
| CallDeleteCachedItem (key : string)
| CallOnAck (partitionId duration : Z)
| CallOnRoundtrip (partitionId duration : Z)
| CallOnOffsetCommit (partitionId duration : Z)
| Advance (t : Z).

Definition with_svc (w : World) (s : Service) : World :=
  {| svc := s; now := now w; sleeping := sleeping w |}.

Definition exec (c : call) (w : World) : outcome World :=
  match c with
  | CallStart r => mret (with_svc w (fst (fst (Start (svc w) r))))
  | CallEnsureCompatibility r => mret (with_svc w (fst (ensureCompatibility (svc w) r)))
  | CallGetCachedItem _ => mret w
  | CallSetCachedItem key val timeout => mret (setCachedItem w key val timeout)
  | CallDeleteCachedItem key => mret (with_svc w (deleteCachedItem (svc w) key))
  | CallOnAck p d => s ← onAck (svc w) p d; mret (with_svc w s)
  | CallOnRoundtrip p d => s ← onRoundtrip (svc w) p d; mret (with_svc w s)
  | CallOnOffsetCommit p d => s ← onOffsetCommit (svc w) p d; mret (with_svc w s)
  | Advance t => mret (advance t w)
  end.

(** The states a service can be in: built by [NewService], then any
    number of calls. *)
Inductive reachable : World -> Prop :=
| reachable_new cfg id metricNamespace registration s t0 :
    NewService cfg None id metricNamespace registration = Ret (inl s) ->
    reachable {| svc := s; now := t0; sleeping := [] |}
| reachable_call c w w' :
    reachable w -> exec c w = Ret w' -> reachable w'.

(** A sequence of calls, one after the other; a panic ends it. *)
Fixpoint run (cs : list call) (w : World) : outcome World :=
  match cs with
  | [] => mret w
  | c :: cs' => w' ← exec c w; run cs' w'
  end.

(** What one call can do to the service: the cache, the logger and the
    log-directory flag may change together (the flag only from true to
    false, the logger only by growing), or one callback records its
    duration. *)
Inductive change : Service -> Service -> Prop :=
| change_state s (b : bool) (lg : list string) (m : gmap string Value) :
    (b = true -> LogDirs_Enabled (Cfg s) = true) ->
    change s (set_cache m
                (set_logger (logger s ++ lg)
                   (set_Cfg (set_LogDirs_Enabled b (Cfg s)) s)))
| change_ack s (c : prometheus.Counter) (h : prometheus.Histogram) (d : Z) :
    endToEndMessagesAcked s = Some c ->
    endToEndAckLatency s = Some h ->
    change s (set_endToEndAckLatency (Some (prometheus.Observe h (Seconds d)))
                (set_endToEndMessagesAcked (Some (c + 1)) s))
| change_roundtrip s (c : prometheus.Counter) (h : prometheus.Histogram) (d : Z) :
    d <= EndToEnd_Consumer_RoundtripSla (Cfg s) ->
    endToEndMessagesReceived s = Some c ->
    endToEndRoundtripLatency s = Some h ->
    change s (set_endToEndRoundtripLatency (Some (prometheus.Observe h (Seconds d)))
                (set_endToEndMessagesReceived (Some (c + 1)) s))
| change_commit_late s (h : prometheus.Histogram) (d : Z) :
    EndToEnd_Consumer_CommitSla (Cfg s) < d ->
    endToEndCommitLatency s = Some h ->
    change s (set_endToEndCommitLatency (Some (prometheus.Observe h (Seconds d))) s)
| change_commit s (c : prometheus.Counter) (h : prometheus.Histogram) (d : Z) :
    d <= EndToEnd_Consumer_CommitSla (Cfg s) ->
    endToEndMessagesCommitted s = Some c ->
    endToEndCommitLatency s = Some h ->
    change s (set_endToEndMessagesCommitted (Some (c + 1))
                (set_endToEndCommitLatency (Some (prometheus.Observe h (Seconds d))) s)).


(** The end-to-end metrics are created together: all seven are there, or
    all seven are nil. *)
Definition has_metrics (s : Service) : Prop :=
  is_Some (endToEndMessagesProduced s) /\
  is_Some (endToEndMessagesAcked s) /\
  is_Some (endToEndMessagesReceived s) /\
  is_Some (endToEndMessagesCommitted s) /\
  is_Some (endToEndAckLatency s) /\
  is_Some (endToEndRoundtripLatency s) /\
  is_Some (endToEndCommitLatency s).

Definition no_metrics (s : Service) : Prop :=
  endToEndMessagesProduced s = None /\
  endToEndMessagesAcked s = None /\
  endToEndMessagesReceived s = None /\
  endToEndMessagesCommitted s = None /\
  endToEndAckLatency s = None /\
  endToEndRoundtripLatency s = None /\
  endToEndCommitLatency s = None.

(** A histogram later in a run: the same boundaries, and the earlier
    observations first. *)
Definition grows (h h' : option prometheus.Histogram) : Prop :=
  match h, h' with
  | Some a, Some b =>
      prometheus.Buckets b = prometheus.Buckets a /\
      prometheus.observations a `prefix_of` prometheus.observations b
  | None, None => True
  | _, _ => False
  end.

(** A counter later in a run. *)
Definition counts_up (c c' : option prometheus.Counter) : Prop :=
  match c, c' with
  | Some a, Some b => a <= b
  | None, None => True
  | _, _ => False
  end.

(** A counter that has been incremented once per observation of a
    histogram. *)
Definition counts (c : option prometheus.Counter) (h : option prometheus.Histogram) : Prop :=
  match c, h with
  | Some n, Some a => n = Z.of_nat (length (prometheus.observations a))
  | None, None => True
  | _, _ => False
  end.

(** A counter that has been incremented at most once per observation. *)
Definition counts_within (c : option prometheus.Counter) (h : option prometheus.Histogram) : Prop :=
  match c, h with
  | Some n, Some a => 0 <= n <= Z.of_nat (length (prometheus.observations a))
  | None, None => True
  | _, _ => False
  end.

(** What a run keeps of the configuration and of the identity. *)
Definition keeps (s s' : Service) : Prop :=
  ConsumerGroups_ScrapeMode (Cfg s') = ConsumerGroups_ScrapeMode (Cfg s) /\
  EndToEnd_Enabled (Cfg s') = EndToEnd_Enabled (Cfg s) /\
  EndToEnd_Producer_AckSla (Cfg s') = EndToEnd_Producer_AckSla (Cfg s) /\
  EndToEnd_Consumer_RoundtripSla (Cfg s') = EndToEnd_Consumer_RoundtripSla (Cfg s) /\
  EndToEnd_Consumer_CommitSla (Cfg s') = EndToEnd_Consumer_CommitSla (Cfg s) /\
  minionID s' = minionID s /\
  (LogDirs_Enabled (Cfg s') = true -> LogDirs_Enabled (Cfg s) = true) /\
  logger s `prefix_of` logger s'.

(** How the metrics differ after a run. *)
Definition recorded (s s' : Service) : Prop :=
  endToEndMessagesProduced s' = endToEndMessagesProduced s /\
  counts_up (endToEndMessagesAcked s) (endToEndMessagesAcked s') /\
  counts_up (endToEndMessagesReceived s) (endToEndMessagesReceived s') /\
  counts_up (endToEndMessagesCommitted s) (endToEndMessagesCommitted s') /\
  grows (endToEndAckLatency s) (endToEndAckLatency s') /\
  grows (endToEndRoundtripLatency s) (endToEndRoundtripLatency s') /\
  grows (endToEndCommitLatency s) (endToEndCommitLatency s').

(** A histogram that is there, has no observation yet, and whose last
    boundary is at least [sla] in seconds. *)
Definition covers (o : option prometheus.Histogram) (sla : Z) : Prop :=
  exists h l q,
    o = Some h /\ prometheus.observations h = [] /\
    last (prometheus.Buckets h) = Some l /\ to_Q l = Some q /\
    (inject_Z sla / inject_Z Second <= q)%Q.

End Service.

(** ** A concrete service, for examples *)

(** A broker whose version set is the list of the API keys it answers. *)
Definition demo_kafka : Kafka :=
  {| ApiVersionsResponse := list Z;
     Versions := list Z;
     FromApiVersionsResponse := fun r => r;
     HasKey := fun vs k => existsb (Z.eqb k) vs;
     DescribeLogDirsRequest_Key := 35;
     ConsumerGroupScrapeModeOffsetsTopic := "offsetsTopic" |}.

Definition demo_cfg : Config :=
  {| ConsumerGroups_ScrapeMode := "adminApi";
     LogDirs_Enabled := true;
     EndToEnd_Enabled := true;
     EndToEnd_Producer_AckSla := 5 * Second;
     EndToEnd_Consumer_RoundtripSla := 5 * Second;
     EndToEnd_Consumer_CommitSla := 1 * Second |}.

Definition demo_histogram (maxLatency : Z) : prometheus.Histogram :=
  match createHistogramBuckets maxLatency with
  | Ret buckets => prometheus.mkHistogram buckets []
  | Panic _ => prometheus.mkHistogram [] []
  end.

(** A registry that takes every metric. *)
Definition fresh_registry (metricNamespace name : string) : option string := None.

(** What [NewService demo_cfg] returns on it. *)
Definition demo_service : @Service string :=
  mkService demo_cfg [] ∅ "minion-1" (of_int 0)
    (Some 0) (Some 0) (Some 0) (Some 0)
    (Some (demo_histogram (5 * Second)))
    (Some (demo_histogram (5 * Second)))
    (Some (demo_histogram (1 * Second))).

Definition demo_world : @World string :=
  {| svc := demo_service; now := 0; sleeping := [] |}.

(** A service built with the end-to-end test disabled. *)
Definition demo_cfg_off : Config :=
  {| ConsumerGroups_ScrapeMode := "offsetsTopic";
     LogDirs_Enabled := false;
     EndToEnd_Enabled := false;
     EndToEnd_Producer_AckSla := 0;
     EndToEnd_Consumer_RoundtripSla := 0;
     EndToEnd_Consumer_CommitSla := 0 |}.

Definition demo_service_off : @Service string :=
  mkService demo_cfg_off [] ∅ "minion-2" (of_int 0)
    None None None None None None None.

Definition demo_world_off : @World string :=
  {| svc := demo_service_off; now := 0; sleeping := [] |}.

(** A short run of the demo service. *)
Definition demo_calls : list (@call string demo_kafka) :=
  [ CallEnsureCompatibility (inl ([0; 1; 18] : @ApiVersionsResponse demo_kafka));
    CallOnAck 0 (2 * Second);
    CallSetCachedItem "k" "v" (120 * Second);
    CallOnRoundtrip 0 (10 * Second);
    CallOnOffsetCommit 0 (1200 * Millisecond);
    Advance (200 * Second) ].

(** * Properties *)

(** ** Facts about float64 *)

Lemma digits2_pos_log2 (p : positive) :
  Zpos (digits2_pos p) = Z.log2 (Zpos p) + 1.
Proof.
  assert (H : forall q, digits2_pos q = Pos.size q)
    by (induction q as [q IH|q IH|]; simpl; congruence).
  rewrite H. destruct p; simpl; lia.
Qed.

Lemma iter_xO_digits (p n : positive) :
  digits2_pos (Pos.iter xO p n) = (digits2_pos p + n)%positive.
Proof.
  induction n as [|n IH] using Pos.peano_ind.
  - simpl. lia.
  - rewrite Pos.iter_succ. simpl. rewrite IH. lia.
Qed.

Lemma iter_xO_value (p n : positive) :
  Zpos (Pos.iter xO p n) = Zpos p * 2 ^ Zpos n.
Proof.
  induction n as [|n IH] using Pos.peano_ind.
  - simpl. lia.
  - rewrite Pos.iter_succ, Pos2Z.inj_xO, IH, Pos2Z.inj_succ, Z.pow_succ_r by lia. ring.
Qed.

Lemma normal_mantissa_digits (p : positive) :
  Zpos (digits2_pos p) <= 53 ->
  Zpos (digits2_pos (normal_mantissa p)) = 53.
Proof.
  intros Hd. unfold normal_mantissa.
  destruct (53 - Zpos (digits2_pos p)) as [|d|d] eqn:E; try lia.
  rewrite iter_xO_digits. lia.
Qed.

Lemma normal_mantissa_value (p : positive) :
  Zpos (digits2_pos p) <= 53 ->
  Zpos (normal_mantissa p) = Zpos p * 2 ^ (53 - Zpos (digits2_pos p)).
Proof.
  intros Hd. unfold normal_mantissa.
  destruct (53 - Zpos (digits2_pos p)) as [|d|d] eqn:E; try lia.
  apply iter_xO_value.
Qed.

(** Rounding leaves a 53-bit mantissa with an exponent in range alone. *)
Lemma binary_round_aux_normal (s : bool) (m : positive) (e : Z) :
  Zpos (digits2_pos m) = 53 -> -1074 <= e <= 971 ->
  binary_round_aux prec emax s (Zpos m) e loc_Exact = S754_finite s m e.
Proof.
  intros Hm He.
  assert (Hf : fexp prec emax (Zpos (digits2_pos m) + e) - e = 0).
  { unfold fexp, emin, prec, emax. rewrite Hm. lia. }
  unfold binary_round_aux, shr_fexp. simpl Zdigits2. rewrite Hf. simpl.
  rewrite Hf. simpl.
  destruct (e <=? emax - prec) eqn:E; [reflexivity|].
  unfold emax, prec in E. lia.
Qed.

(** An integer of at most 53 bits converts exactly. *)
Lemma of_int_pos (p : positive) :
  Zpos (digits2_pos p) <= 53 ->
  of_int (Zpos p) = S754_finite false (normal_mantissa p) (Zpos (digits2_pos p) - 53).
Proof.
  intros Hd. unfold of_int, binary_normalize, binary_round, shl_align.
  assert (Hf : fexp prec emax (Zpos (digits2_pos p) + 0) = Zpos (digits2_pos p) - 53).
  { unfold fexp, emin, prec, emax. lia. }
  rewrite Hf. unfold normal_mantissa.
  replace (Zpos (digits2_pos p) - 53 - 0) with (- (53 - Zpos (digits2_pos p))) by lia.
  destruct (53 - Zpos (digits2_pos p)) as [|d|d] eqn:E; try lia; simpl Z.opp; cbv iota.
  - replace (Zpos (digits2_pos p) - 53) with 0 by lia.
    apply binary_round_aux_normal; lia.
  - apply binary_round_aux_normal; [rewrite iter_xO_digits|]; lia.
Qed.

Lemma to_int_of_int (z : Z) : 0 <= z < 2 ^ 53 -> to_int (of_int z) = z.
Proof.
  intros Hz. destruct z as [|p|p]; [reflexivity| |lia].
  assert (Hd : Zpos (digits2_pos p) <= 53).
  { rewrite digits2_pos_log2.
    assert (Z.log2 (Zpos p) < 53) by (apply Z.log2_lt_pow2; lia). lia. }
  rewrite of_int_pos by exact Hd. unfold to_int, cond_Zopp.
  rewrite normal_mantissa_value by exact Hd.
  set (d := Zpos (digits2_pos p)) in *.
  replace (d - 53) with (- (53 - d)) by lia.
  rewrite Z.shiftl_opp_r, Z.shiftr_div_pow2 by lia.
  rewrite Z.div_mul by (apply Z.pow_nonzero; lia).
  unfold min_int64, max_int64.
  destruct ((- 2 ^ 63 <=? Zpos p) && (Zpos p <=? 2 ^ 63 - 1)) eqn:E; [reflexivity|].
  apply andb_false_iff in E. destruct E as [E|E]; lia.
Qed.

Lemma Logb_of_int (k : Z) :
  0 < k < 2 ^ 53 -> Logb (of_int k) = of_int (Z.log2 k).
Proof.
  intros Hk. destruct k as [|p|p]; try lia.
  assert (Hd : Zpos (digits2_pos p) <= 53).
  { rewrite digits2_pos_log2.
    assert (Z.log2 (Zpos p) < 53) by (apply Z.log2_lt_pow2; lia). lia. }
  rewrite of_int_pos by exact Hd. unfold Logb, ilogb.
  rewrite normal_mantissa_digits by exact Hd.
  f_equal. rewrite digits2_pos_log2. lia.
Qed.

(** [int(math.Logb(float64(k)))] is the integer logarithm of [k]. *)
Lemma to_int_Logb_of_int (k : Z) :
  0 < k < 2 ^ 53 -> to_int (Logb (of_int k)) = Z.log2 k.
Proof.
  intros Hk. rewrite Logb_of_int by exact Hk.
  apply to_int_of_int. split; [apply Z.log2_nonneg|].
  assert (Z.log2 k < 53) by (apply Z.log2_lt_pow2; lia). lia.
Qed.

(** The float64 constants 2 and 0.005 of [createHistogramBuckets]. *)
Lemma two_repr : of_int 2 = S754_finite false 4503599627370496 (-51).
Proof. reflexivity. Qed.

Lemma floor_repr : of_ratio 5 1000 = S754_finite false floor_mantissa (-60).
Proof. vm_compute. reflexivity. Qed.

(** Doubling a boundary only moves its exponent: the product is exact. *)
Lemma mul_floor_two (e : Z) :
  -1074 <= e <= 900 ->
  mul (S754_finite false floor_mantissa e) (of_int 2)
  = S754_finite false floor_mantissa (e + 1).
Proof.
  intros He. unfold floor_mantissa. rewrite two_repr. unfold mul, SFmul, binary_round_aux, shr_fexp.
  set (mm := (5764607523034235 * 4503599627370496)%positive).
  replace (Zdigits2 (Zpos mm)) with 105 by (vm_compute; reflexivity).
  replace (fexp prec emax (105 + (e + -51)) - (e + -51)) with 52
    by (unfold fexp, emin, prec, emax; lia).
  unfold shr.
  replace (SpecFloat.iter_pos shr_1 52%positive (shr_record_of_loc (Zpos mm) loc_Exact))
    with {| shr_m := 5764607523034235; shr_r := false; shr_s := false |}
    by (vm_compute; reflexivity).
  cbn [loc_of_shr_record shr_m round_nearest_even xorb].
  replace (Zdigits2 5764607523034235) with 53 by (vm_compute; reflexivity).
  replace (fexp prec emax (53 + (e + -51 + 52)) - (e + -51 + 52)) with 0
    by (unfold fexp, emin, prec, emax; lia).
  cbn [shr_record_of_loc shr_m].
  replace (e + -51 + 52) with (e + 1) by lia.
  destruct (e + 1 <=? emax - prec) eqn:E; [reflexivity|].
  unfold emax, prec in E. lia.
Qed.

(** ** The bucket sizer *)

Lemma fill_length (start factor : float64) (n : nat) :
  length (prometheus.fill start factor n) = n.
Proof. revert start. induction n as [|n IH]; intros start; simpl; [reflexivity|]. now rewrite IH. Qed.

Lemma fill_floor_lookup (n i : nat) (e : Z) :
  -1074 <= e -> e + Z.of_nat n <= 901 -> (i < n)%nat ->
  prometheus.fill (S754_finite false floor_mantissa e) (of_int 2) n !! i
  = Some (S754_finite false floor_mantissa (e + Z.of_nat i)).
Proof.
  revert i e. induction n as [|n IH]; intros i e He Hn Hi; [lia|].
  cbn [prometheus.fill]. rewrite mul_floor_two by lia. destruct i as [|i].
  - rewrite Z.add_0_r. reflexivity.
  - replace (e + Z.of_nat (S i)) with (e + 1 + Z.of_nat i) by lia.
    rewrite <- (IH i (e + 1)) by lia. reflexivity.
Qed.

Lemma quot_bounds (maxLatency : Z) :
  0 <= maxLatency <= max_int64 ->
  let ms := Milliseconds maxLatency in
  let k := Z.quot ms 10 in
  ms * Millisecond <= maxLatency < (ms + 1) * Millisecond /\
  k * 10 <= ms < (k + 1) * 10 /\ 0 <= k < 2 ^ 53.
Proof.
  intros Hd ms k. unfold max_int64 in Hd.
  assert (Hms : ms = maxLatency / Millisecond)
    by (unfold ms, Milliseconds; apply Z.quot_div_nonneg; unfold Millisecond; lia).
  assert (H0 : 0 <= ms) by (rewrite Hms; apply Z.div_pos; unfold Millisecond; lia).
  assert (Hk : k = ms / 10) by (unfold k; apply Z.quot_div_nonneg; lia).
  assert (H1 := Z.mul_div_le maxLatency Millisecond).
  assert (H2 := Z.mul_succ_div_gt maxLatency Millisecond).
  assert (H3 := Z.mul_div_le ms 10).
  assert (H4 := Z.mul_succ_div_gt ms 10).
  rewrite <- Hms in H1, H2. rewrite <- Hk in H3, H4.
  unfold Millisecond in *. lia.
Qed.

(** From 10 milliseconds on, the count is the integer logarithm plus 3. *)
Lemma createHistogramBuckets_from_10ms (maxLatency : Z) :
  10 * Millisecond <= maxLatency <= max_int64 ->
  let n := Z.log2 (Z.quot (Milliseconds maxLatency) 10) + 3 in
  3 <= n <= 55 /\
  createHistogramBuckets maxLatency
  = Ret (prometheus.fill (of_ratio 5 1000) (of_int 2) (Z.to_nat n)).
Proof.
  intros Hd n.
  destruct (quot_bounds maxLatency) as (Hms & Hk & Hk53);
    [unfold Millisecond in Hd; lia|].
  set (k := Z.quot (Milliseconds maxLatency) 10) in *.
  assert (Hk1 : 1 <= k) by (unfold Millisecond in *; lia).
  assert (Hlog : 0 <= Z.log2 k < 53)
    by (split; [apply Z.log2_nonneg | apply Z.log2_lt_pow2; lia]).
  split; [unfold n; lia|].
  unfold createHistogramBuckets. fold k.
  rewrite to_int_Logb_of_int by lia. fold n.
  assert (Hw : wrap64 n = n).
  { unfold wrap64. rewrite Z.mod_small; unfold n; lia. }
  rewrite Hw. unfold prometheus.ExponentialBuckets.
  destruct (n <? 1) eqn:E; [unfold n in E; lia|].
  reflexivity.
Qed.


Lemma floor_ltb (e1 e2 : Z) :
  e1 < e2 ->
  ltb (S754_finite false floor_mantissa e1) (S754_finite false floor_mantissa e2) = true.
Proof.
  intros He. unfold ltb, SFltb, SFcompare.
  apply Z.compare_lt_iff in He. now rewrite He.
Qed.

Lemma floor_exact_double (e : Z) :
  exact_double (S754_finite false floor_mantissa e)
               (S754_finite false floor_mantissa (e + 1)).
Proof.
  unfold exact_double, to_Q. do 2 eexists. split; [reflexivity|]. split; [reflexivity|].
  rewrite Qpower_plus by discriminate. change (2 ^ 1)%Q with 2%Q. ring.
Qed.

(** The last boundary [floor_mantissa * 2^(j - 58)] of [j + 3] buckets
    reaches every latency below [2^(j+1) * 10] milliseconds. *)
Lemma floor_last_bound (maxLatency j : Z) :
  0 <= j -> maxLatency < 2 ^ (j + 1) * (10 * Millisecond) ->
  (inject_Z maxLatency / inject_Z Second
   <= inject_Z (Zpos floor_mantissa) * 2 ^ (j - 58))%Q.
Proof.
  intros Hj Hd.
  replace (j - 58) with (j + (-58)) by lia.
  rewrite Qpower_plus by discriminate.
  rewrite <- (Zpower_Qpower 2 j) by exact Hj.
  assert (Hp : 0 < 2 ^ j) by (apply Z.pow_pos_nonneg; lia).
  rewrite Z.pow_add_r, Z.pow_1_r in Hd by lia.
  apply Qle_trans with (inject_Z (2 ^ j) * (2 # 100))%Q.
  - apply Qle_shift_div_r; [reflexivity|].
    unfold Qle, Qmult, inject_Z, Second, Millisecond in *. simpl. lia.
  - rewrite (Qmult_comm (inject_Z (Zpos floor_mantissa))), <- Qmult_assoc.
    apply Qmult_le_l; [unfold Qlt, inject_Z; simpl; lia|].
    vm_compute. discriminate.
Qed.

(** C1: from 20 milliseconds on, the boundaries of
    [createHistogramBuckets] start at 0.005, every boundary is exactly
    twice the one before (the product by 2 the code computes is exact),
    they are strictly increasing, and the last one is at least
    [maxLatency] in seconds. *)
Theorem createHistogramBuckets_exponential (maxLatency : Z) :
  20 * Millisecond <= maxLatency <= max_int64 ->
  exists buckets,
    createHistogramBuckets maxLatency = Ret buckets /\
    buckets !! 0%nat = Some (of_ratio 5 1000) /\
    (forall i x y, buckets !! i = Some x -> buckets !! S i = Some y ->
       y = mul x (of_int 2) /\ exact_double x y) /\
    (forall i j x y, (i < j)%nat -> buckets !! i = Some x -> buckets !! j = Some y ->
       ltb x y = true) /\
    (exists l q, last buckets = Some l /\ to_Q l = Some q /\
       (inject_Z maxLatency / inject_Z Second <= q)%Q).
Proof.
  intros Hd.
  destruct (createHistogramBuckets_from_10ms maxLatency) as (Hn & Heq);
    [unfold Millisecond in *; lia|].
  destruct (quot_bounds maxLatency) as (Hms & Hk & Hk53);
    [unfold Millisecond in Hd; lia|].
  set (k := Z.quot (Milliseconds maxLatency) 10) in *.
  set (n := Z.log2 k + 3) in *.
  assert (Hk2 : 2 <= k) by (unfold Millisecond in *; lia).
  assert (Hlog : 1 <= Z.log2 k) by (change 1 with (Z.log2 2); apply Z.log2_le_mono; lia).
  rewrite floor_repr in Heq.
  set (bs := prometheus.fill (S754_finite false floor_mantissa (-60)) (of_int 2) (Z.to_nat n)) in *.
  assert (Hlen : length bs = Z.to_nat n) by apply fill_length.
  assert (Hat : forall i, (i < Z.to_nat n)%nat ->
            bs !! i = Some (S754_finite false floor_mantissa (-60 + Z.of_nat i)))
    by (intros i Hi; apply fill_floor_lookup; lia).
  assert (Hin : forall i x, bs !! i = Some x -> (i < Z.to_nat n)%nat)
    by (intros i x Hx; rewrite <- Hlen; eapply lookup_lt_Some; exact Hx).
  exists bs. split; [exact Heq|]. split; [|split; [|split]].
  - rewrite floor_repr. apply Hat. lia.
  - intros i x y Hx Hy.
    assert (Hi := Hin _ _ Hy).
    rewrite Hat in Hx, Hy by lia. injection Hx as <-. injection Hy as <-.
    replace (-60 + Z.of_nat (S i)) with (-60 + Z.of_nat i + 1) by lia.
    split; [|apply floor_exact_double].
    symmetry. apply mul_floor_two. lia.
  - intros i j x y Hij Hx Hy.
    assert (Hj := Hin _ _ Hy).
    rewrite Hat in Hx, Hy by lia. injection Hx as <-. injection Hy as <-.
    apply floor_ltb. lia.
  - exists (S754_finite false floor_mantissa (Z.log2 k - 58)).
    eexists. split; [|split; [reflexivity|]].
    + rewrite last_lookup, Hlen, Hat by lia. do 2 f_equal. lia.
    + apply floor_last_bound; [lia|].
      destruct (Z.log2_spec k) as [_ Hup]; [lia|].
      rewrite <- Z.add_1_r in Hup. unfold Millisecond in *. nia.
Qed.

Lemma createHistogramBuckets_exponential_witness :
  20 * Millisecond <= 5000 * Millisecond <= max_int64 /\
  exists buckets,
    createHistogramBuckets (5000 * Millisecond) = Ret buckets /\
    length buckets = 11%nat /\
    last buckets = Some (S754_finite false floor_mantissa (-50)).
Proof.
  split; [unfold Millisecond, max_int64; lia|].
  destruct (createHistogramBuckets_exponential (5000 * Millisecond))
    as (buckets & Heq & _); [unfold Millisecond, max_int64; lia|].
  exists buckets. split; [exact Heq|].
  vm_compute in Heq. injection Heq as <-. split; reflexivity.
Defined.

(** C3: from 10 milliseconds on, [createHistogramBuckets] returns
    [floor (log2 (maxLatencyMillis / 10)) + 3] boundaries, for the integer
    quotient as for the exact one. *)
Theorem createHistogramBuckets_count (maxLatency : Z) :
  10 * Millisecond <= maxLatency <= max_int64 ->
  exists buckets,
    createHistogramBuckets maxLatency = Ret buckets /\
    let n := Z.of_nat (length buckets) in
    n = Z.log2 (Milliseconds maxLatency / 10) + 3 /\
    10 * 2 ^ (n - 3) <= Milliseconds maxLatency < 10 * 2 ^ (n - 3 + 1).
Proof.
  intros Hd.
  destruct (createHistogramBuckets_from_10ms maxLatency) as (Hn & Heq); [exact Hd|].
  destruct (quot_bounds maxLatency) as (Hms & Hk & Hk53);
    [unfold Millisecond in Hd; lia|].
  assert (Hq : Z.quot (Milliseconds maxLatency) 10 = Milliseconds maxLatency / 10)
    by (apply Z.quot_div_nonneg; unfold Millisecond in *; lia).
  rewrite Hq in *.
  set (k := Milliseconds maxLatency / 10) in *.
  assert (Hk1 : 1 <= k) by (unfold Millisecond in *; lia).
  eexists. split; [exact Heq|]. cbv zeta. rewrite fill_length.
  rewrite Z2Nat.id by lia. split; [reflexivity|].
  replace (Z.log2 k + 3 - 3) with (Z.log2 k) by lia.
  destruct (Z.log2_spec k) as [Hlo Hup]; [lia|].
  rewrite <- Z.add_1_r in Hup. lia.
Qed.

Lemma createHistogramBuckets_count_witness :
  10 * Millisecond <= 15 * Millisecond <= max_int64 /\
  exists buckets,
    createHistogramBuckets (15 * Millisecond) = Ret buckets /\
    length buckets = 3%nat.
Proof.
  split; [unfold Millisecond, max_int64; lia|].
  destruct (createHistogramBuckets_count (15 * Millisecond))
    as (buckets & Heq & _); [unfold Millisecond, max_int64; lia|].
  exists buckets. split; [exact Heq|].
  vm_compute in Heq. injection Heq as <-. reflexivity.
Defined.

(** C2: at 5 milliseconds [createHistogramBuckets] does not return: the
    quotient by 10 is 0, [math.Logb] gives minus infinity, the count is
    negative and [ExponentialBuckets] panics. *)
Theorem createHistogramBuckets_5ms_panics :
  createHistogramBuckets (5 * Millisecond)
  = Panic "ExponentialBuckets needs a positive count".
Proof. vm_compute. reflexivity. Qed.

(** Below 10 milliseconds there is no count to clamp: every such call
    panics. *)
Lemma createHistogramBuckets_below_10ms (maxLatency : Z) :
  - (10 * Millisecond) < maxLatency < 10 * Millisecond ->
  createHistogramBuckets maxLatency = Panic "ExponentialBuckets needs a positive count".
Proof.
  intros Hd. unfold createHistogramBuckets.
  assert (Hk : Z.quot (Milliseconds maxLatency) 10 = 0).
  { apply Z.quot_small_iff; [lia|]. unfold Milliseconds, Millisecond in *.
    assert (H1 := Z.quot_lt_upper_bound). 
    destruct (Z.le_gt_cases 0 maxLatency) as [H0|H0].
    - rewrite Z.abs_eq by (apply Z.quot_pos; lia).
      rewrite Z.quot_div_nonneg by lia. rewrite Z.abs_eq by lia.
      apply Z.div_lt_upper_bound; lia.
    - replace maxLatency with (- (- maxLatency)) by lia.
      rewrite Z.quot_opp_l by lia. rewrite Z.abs_opp.
      rewrite Z.abs_eq by (apply Z.quot_pos; lia).
      rewrite Z.quot_div_nonneg by lia. rewrite Z.abs_eq by lia.
      apply Z.div_lt_upper_bound; lia. }
  rewrite Hk. reflexivity.
Qed.

(** ** The service *)

Section ServiceFacts.

Context {Value : Type}.
Context `{Kafka}.

Implicit Types (s : @Service Value) (w : @World Value).

(** *** The cache *)

Lemma wake_absent (t : Z) (sl : list (Z * string)) s (k : string) :
  cache s !! k = None -> cache (wake t sl s).1 !! k = None.
Proof.
  revert s. induction sl as [|[due key] sl IH]; intros s Hk; simpl; [exact Hk|].
  destruct (due <=? t).
  - apply IH. simpl. destruct (decide (key = k)) as [->|Hne].
    + apply lookup_delete_eq.
    + rewrite lookup_delete_ne by exact Hne. exact Hk.
  - specialize (IH s Hk). destruct (wake t sl s) as [s' rest]. exact IH.
Qed.

(** A goroutine whose sleep is over deletes its key, whatever is stored
    there. *)
Lemma wake_deletes (t : Z) (sl : list (Z * string)) s (k : string) (due : Z) :
  (due, k) ∈ sl -> due <= t -> cache (wake t sl s).1 !! k = None.
Proof.
  revert s. induction sl as [|[due' key] sl IH]; intros s Hin Hdue.
  - inversion Hin.
  - simpl. destruct (due' <=? t) eqn:E.
    + destruct (decide (key = k)) as [->|Hne].
      * apply wake_absent. simpl. apply lookup_delete_eq.
      * apply IH; [|exact Hdue]. apply elem_of_cons in Hin.
        destruct Hin as [Heq|Hin]; [congruence|exact Hin].
    + assert (Hin' : (due, k) ∈ sl).
      { apply elem_of_cons in Hin. destruct Hin as [Heq|Hin]; [|exact Hin].
        injection Heq as -> ->. lia. }
      specialize (IH s Hin' Hdue). destruct (wake t sl s) as [s' rest]. exact IH.
Qed.

(** A goroutine that is still asleep stays in the list. *)
Lemma wake_keeps (t : Z) (sl : list (Z * string)) s (k : string) (due : Z) :
  (due, k) ∈ sl -> t < due -> (due, k) ∈ (wake t sl s).2.
Proof.
  revert s. induction sl as [|[due' key] sl IH]; intros s Hin Hdue.
  - inversion Hin.
  - simpl. apply elem_of_cons in Hin. destruct (due' <=? t) eqn:E.
    + apply IH; [|exact Hdue]. destruct Hin as [Heq|Hin]; [|exact Hin].
      injection Heq as -> ->. lia.
    + destruct Hin as [Heq|Hin].
      * destruct (wake t sl s) as [s' rest]. rewrite Heq. apply elem_of_cons. now left.
      * specialize (IH s Hin Hdue). destruct (wake t sl s) as [s' rest].
        apply elem_of_cons. now right.
Qed.

Lemma advance_svc (t : Z) w :
  svc (advance t w) = (wake (Z.max t (now w)) (sleeping w) (svc w)).1.
Proof. unfold advance. now destruct (wake _ _ _). Qed.

Lemma advance_sleeping (t : Z) w :
  sleeping (advance t w) = (wake (Z.max t (now w)) (sleeping w) (svc w)).2.
Proof. unfold advance. now destruct (wake _ _ _). Qed.

Lemma advance_now (t : Z) w : now (advance t w) = Z.max t (now w).
Proof. unfold advance. now destruct (wake _ _ _). Qed.

(** C4, as the code has it: the expiry scheduled by the first
    [setCachedItem] deletes the key whatever is stored under it, so after
    [ttl1] a [getCachedItem] finds nothing, the second value included and
    whether or not [ttl2] has elapsed. *)
Theorem stale_expiry_removes_newer_value
  w (k : string) (v1 v2 : Value) (ttl1 ttl2 t1 t : Z) :
  now w <= t1 < now w + ttl1 ->
  now w + ttl1 <= t ->
  let w1 := advance t1 (setCachedItem w k v1 ttl1) in
  let w2 := advance t (setCachedItem w1 k v2 ttl2) in
  getCachedItem (svc w2) k = None.
Proof.
  intros Ht1 Ht w1 w2. unfold getCachedItem, w2.
  rewrite advance_svc.
  apply wake_deletes with (due := now w + ttl1); [|simpl; lia].
  simpl. apply elem_of_app. left. unfold w1.
  rewrite advance_sleeping. apply wake_keeps; simpl.
  - apply elem_of_app. right. apply list_elem_of_singleton. reflexivity.
  - lia.
Qed.

(** Until the first expiry fires the second value is there, when no older
    expiry for the key is pending. *)
Lemma second_value_before_first_expiry
  w (k : string) (v1 v2 : Value) (ttl1 ttl2 t1 t : Z) :
  (forall due, (due, k) ∉ sleeping w) ->
  now w <= t1 < now w + ttl1 -> t < now w + ttl1 -> 0 < ttl2 -> t < t1 + ttl2 ->
  let w1 := advance t1 (setCachedItem w k v1 ttl1) in
  let w2 := advance t (setCachedItem w1 k v2 ttl2) in
  getCachedItem (svc w2) k = Some v2.
Proof.
  intros Hfree Ht1 Ht Httl2 Ht2 w1 w2.
  assert (Hwake : forall t' sl s,
            (forall due, (due, k) ∈ sl -> t' < due) ->
            cache (wake t' sl s).1 !! k = cache s !! k).
  { intros t' sl. induction sl as [|[due key] sl IH]; intros s Hsl; simpl; [reflexivity|].
    destruct (due <=? t') eqn:E.
    - rewrite IH by (intros d Hd; apply Hsl, elem_of_cons; now right).
      simpl. apply lookup_delete_ne. intros ->.
      specialize (Hsl due (list_elem_of_here _ _)). lia.
    - specialize (IH s). destruct (wake t' sl s) as [s' rest].
      apply IH. intros d Hd. apply Hsl, elem_of_cons. now right. }
  assert (Hsub : forall t' sl s x, x ∈ (wake t' sl s).2 -> x ∈ sl).
  { intros t' sl. induction sl as [|[due key] sl IH]; intros s x; simpl; [tauto|].
    destruct (due <=? t').
    - intros Hx. apply elem_of_cons. right. eapply IH, Hx.
    - specialize (IH s x). destruct (wake t' sl s) as [s' rest]. simpl in *.
      intros Hx. apply elem_of_cons in Hx. apply elem_of_cons.
      destruct Hx as [Hx|Hx]; [now left|right; now apply IH]. }
  assert (Hnow1 : now w1 = t1) by (unfold w1; rewrite advance_now; simpl; lia).
  assert (Hsl1 : forall x, x ∈ sleeping w1 -> x ∈ sleeping w ++ [(now w + ttl1, k)]).
  { intros x Hx. unfold w1 in Hx. rewrite advance_sleeping in Hx.
    apply Hsub in Hx. exact Hx. }
  clearbody w1. unfold getCachedItem, w2. rewrite advance_svc, Hwake.
  - simpl. apply lookup_insert_eq.
  - intros due Hin. cbn [now setCachedItem sleeping] in *. rewrite Hnow1.
    apply elem_of_app in Hin. destruct Hin as [Hin|Hin].
    + apply Hsl1, elem_of_app in Hin. destruct Hin as [Hin|Hin].
      * exfalso. exact (Hfree _ Hin).
      * apply list_elem_of_singleton in Hin. injection Hin as ->. lia.
    + apply list_elem_of_singleton in Hin. injection Hin as ->. lia.
Qed.

End ServiceFacts.

Lemma stale_expiry_removes_newer_value_witness :
  (now demo_world <= 5 < now demo_world + 10) /\
  (now demo_world + 10 <= 20) /\
  getCachedItem
    (svc (advance 20 (setCachedItem
            (advance 5 (setCachedItem demo_world "k" "v1" 10)) "k" "v2" 100)))
    "k" = None.
Proof.
  split; [simpl; lia|]. split; [simpl; lia|].
  apply (stale_expiry_removes_newer_value demo_world "k" "v1" "v2" 10 100 5 20);
    simpl; lia.
Defined.

(** C4 as the specification words it fails: the second value is set at 5
    with a lifetime of 100, the first expiry fires at 10, and at 20 the
    value is gone. *)
Lemma stale_expiry_counterexample :
  ~ (forall (w : @World string) (k v1 v2 : string) (ttl1 ttl2 t1 t : Z),
       now w <= t1 < now w + ttl1 ->
       now w + ttl1 <= t < t1 + ttl2 ->
       getCachedItem
         (svc (advance t (setCachedItem
                 (advance t1 (setCachedItem w k v1 ttl1)) k v2 ttl2)))
         k = Some v2).
Proof.
  intros Hclaim.
  specialize (Hclaim demo_world "k" "v1" "v2" 10 100 5 20).
  assert (Hnone : getCachedItem
            (svc (advance 20 (setCachedItem
                    (advance 5 (setCachedItem demo_world "k" "v1" 10)) "k" "v2" 100)))
            "k" = None) by (vm_compute; reflexivity).
  rewrite Hnone in Hclaim. discriminate Hclaim; simpl; lia.
Qed.

(** ** The end-to-end callbacks *)

Lemma Seconds_2s : Seconds (2 * Second) = of_int 2.
Proof. vm_compute. reflexivity. Qed.

Lemma Seconds_1200ms : Seconds (1200 * Millisecond) = of_ratio 12 10.
Proof. vm_compute. reflexivity. Qed.

Section CallbackFacts.

Context {Value : Type}.

Implicit Types (s : @Service Value).

(** C6: [onAck] adds one to the acked counter and observes the duration,
    in seconds, in the ack histogram; the configuration, [AckSla]
    included, has no part in it, and nothing else changes. *)
Theorem onAck_unconditional
  s (partitionId duration : Z) (c : prometheus.Counter) (h : prometheus.Histogram) :
  endToEndMessagesAcked s = Some c ->
  endToEndAckLatency s = Some h ->
  let s' := set_endToEndAckLatency
              (Some (prometheus.mkHistogram (prometheus.Buckets h)
                       (prometheus.observations h ++ [Seconds duration])))
              (set_endToEndMessagesAcked (Some (c + 1)) s) in
  onAck s partitionId duration = Ret s' /\
  forall cfg, onAck (set_Cfg cfg s) partitionId duration = Ret (set_Cfg cfg s').
Proof.
  intros Hc Hh s'. unfold onAck. simpl. rewrite Hc, Hh. simpl. split; reflexivity.
Qed.

(** C7: beyond [RoundtripSla], [onRoundtrip] returns the service as it
    was; otherwise it adds one to the received counter and observes the
    duration, in seconds, in the roundtrip histogram. *)
Theorem onRoundtrip_sla_gate s (partitionId duration : Z) :
  (duration > EndToEnd_Consumer_RoundtripSla (Cfg s) ->
   onRoundtrip s partitionId duration = Ret s) /\
  (forall (c : prometheus.Counter) (h : prometheus.Histogram),
     duration <= EndToEnd_Consumer_RoundtripSla (Cfg s) ->
     endToEndMessagesReceived s = Some c ->
     endToEndRoundtripLatency s = Some h ->
     onRoundtrip s partitionId duration
     = Ret (set_endToEndRoundtripLatency
              (Some (prometheus.mkHistogram (prometheus.Buckets h)
                       (prometheus.observations h ++ [Seconds duration])))
              (set_endToEndMessagesReceived (Some (c + 1)) s))).
Proof.
  unfold onRoundtrip. split.
  - intros Hd. apply Z.gtb_gt in Hd. now rewrite Hd.
  - intros c h Hd Hc Hh.
    destruct (duration >? EndToEnd_Consumer_RoundtripSla (Cfg s)) eqn:E;
      [apply Z.gtb_gt in E; lia|].
    simpl. rewrite Hc, Hh. reflexivity.
Qed.

(** C8: [onOffsetCommit] observes the duration, in seconds, in the commit
    histogram whatever the SLA says, and adds one to the committed counter
    exactly when the duration is at most [CommitSla]: within the SLA the
    counter goes from [c] to [c + 1], beyond it the counter stays [c].
    Nothing else in the service changes. *)
Theorem onOffsetCommit_histogram_always
  s (partitionId duration : Z) (c : prometheus.Counter) (h : prometheus.Histogram) :
  endToEndMessagesCommitted s = Some c ->
  endToEndCommitLatency s = Some h ->
  exists s',
    onOffsetCommit s partitionId duration = Ret s' /\
    endToEndCommitLatency s'
    = Some (prometheus.mkHistogram (prometheus.Buckets h)
              (prometheus.observations h ++ [Seconds duration])) /\
    (duration <= EndToEnd_Consumer_CommitSla (Cfg s) ->
     endToEndMessagesCommitted s' = Some (c + 1)) /\
    (duration > EndToEnd_Consumer_CommitSla (Cfg s) ->
     endToEndMessagesCommitted s' = Some c) /\
    Cfg s' = Cfg s /\ logger s' = logger s /\ cache s' = cache s /\
    minionID s' = minionID s /\
    lastRoundtripTimestamp s' = lastRoundtripTimestamp s /\
    endToEndMessagesProduced s' = endToEndMessagesProduced s /\
    endToEndMessagesAcked s' = endToEndMessagesAcked s /\
    endToEndMessagesReceived s' = endToEndMessagesReceived s /\
    endToEndAckLatency s' = endToEndAckLatency s /\
    endToEndRoundtripLatency s' = endToEndRoundtripLatency s.
Proof.
  intros Hc Hh. unfold onOffsetCommit. rewrite Hh. simpl.
  destruct (duration >? EndToEnd_Consumer_CommitSla (Cfg s)) eqn:E.
  - apply Z.gtb_gt in E. eexists. split; [reflexivity|]. simpl.
    split; [reflexivity|]. split; [lia|]. split; [intros _; exact Hc|].
    repeat split.
  - rewrite Z.gtb_ltb in E. apply Z.ltb_ge in E. rewrite Hc. simpl.
    eexists. split; [reflexivity|]. simpl.
    split; [reflexivity|]. split; [reflexivity|]. split; [lia|].
    repeat split.
Qed.

End CallbackFacts.

Lemma onAck_unconditional_witness :
  endToEndMessagesAcked demo_service = Some 0 /\
  endToEndAckLatency demo_service = Some (demo_histogram (5 * Second)) /\
  exists s',
    onAck demo_service 0 (2 * Second) = Ret s' /\
    endToEndMessagesAcked s' = Some 1 /\
    (prometheus.observations <$> endToEndAckLatency s') = Some [of_int 2].
Proof.
  split; [reflexivity|]. split; [reflexivity|].
  destruct (onAck_unconditional demo_service 0 (2 * Second) 0 (demo_histogram (5 * Second))
              eq_refl eq_refl) as [Hret _].
  eexists. split; [exact Hret|]. split; reflexivity.
Defined.

Lemma onRoundtrip_sla_gate_witness :
  (10 * Second > EndToEnd_Consumer_RoundtripSla (Cfg demo_service) /\
   onRoundtrip demo_service 0 (10 * Second) = Ret demo_service) /\
  (2 * Second <= EndToEnd_Consumer_RoundtripSla (Cfg demo_service) /\
   endToEndMessagesReceived demo_service = Some 0 /\
   endToEndRoundtripLatency demo_service = Some (demo_histogram (5 * Second)) /\
   exists s',
     onRoundtrip demo_service 0 (2 * Second) = Ret s' /\
     endToEndMessagesReceived s' = Some 1 /\
     (prometheus.observations <$> endToEndRoundtripLatency s') = Some [of_int 2]).
Proof.
  split.
  - split; [reflexivity|].
    apply (proj1 (onRoundtrip_sla_gate demo_service 0 (10 * Second))). reflexivity.
  - split; [discriminate|]. split; [reflexivity|]. split; [reflexivity|].
    eexists. split.
    + apply (proj2 (onRoundtrip_sla_gate demo_service 0 (2 * Second))
               0 (demo_histogram (5 * Second))); [discriminate|reflexivity|reflexivity].
    + split; reflexivity.
Defined.

Lemma onOffsetCommit_histogram_always_witness :
  endToEndMessagesCommitted demo_service = Some 0 /\
  endToEndCommitLatency demo_service = Some (demo_histogram (1 * Second)) /\
  (exists s',
     onOffsetCommit demo_service 0 (500 * Millisecond) = Ret s' /\
     endToEndMessagesCommitted s' = Some 1 /\
     (prometheus.observations <$> endToEndCommitLatency s') = Some [of_ratio 1 2]) /\
  (exists s',
     onOffsetCommit demo_service 0 (1200 * Millisecond) = Ret s' /\
     endToEndMessagesCommitted s' = Some 0 /\
     (prometheus.observations <$> endToEndCommitLatency s') = Some [of_ratio 12 10]).
Proof.
  split; [reflexivity|]. split; [reflexivity|]. split.
  - destruct (onOffsetCommit_histogram_always demo_service 0 (500 * Millisecond) 0
                (demo_histogram (1 * Second)) eq_refl eq_refl)
      as (s' & Hret & Hh & Hin & _).
    exists s'. split; [exact Hret|]. split.
    + apply Hin. vm_compute. discriminate.
    + rewrite Hh. vm_compute. reflexivity.
  - destruct (onOffsetCommit_histogram_always demo_service 0 (1200 * Millisecond) 0
                (demo_histogram (1 * Second)) eq_refl eq_refl)
      as (s' & Hret & Hh & _ & Hout & _).
    exists s'. split; [exact Hret|]. split.
    + apply Hout. reflexivity.
    + rewrite Hh. vm_compute. reflexivity.
Defined.

(** ** The compatibility gate *)

Section GateFacts.

Context {Value : Type}.
Context `{Kafka}.

Implicit Types (s : @Service Value).

(** C9: when the version set lacks the key of DescribeLogDirs and log
    directories are enabled, [ensureCompatibility] switches them off and
    returns no error; when the version query fails it returns the error,
    wrapped, and leaves the service as it was. *)
Theorem ensureCompatibility_gate s :
  (forall res,
     HasKey (FromApiVersionsResponse res) DescribeLogDirsRequest_Key = false ->
     LogDirs_Enabled (Cfg s) = true ->
     exists s',
       ensureCompatibility s (inl res) = (s', None) /\
       LogDirs_Enabled (Cfg s') = false) /\
  (forall err,
     ensureCompatibility s (inr err)
     = (s, Some (Errorf_w "kafka api versions couldn't be fetched: %w" err))).
Proof.
  split.
  - intros res Hkey Hen. unfold ensureCompatibility. rewrite Hen, Hkey. simpl.
    eexists. split; reflexivity.
  - intros err. reflexivity.
Qed.

(** *** The last roundtrip timestamp *)

Lemma wake_lastRoundtripTimestamp (t : Z) (sl : list (Z * string)) s :
  lastRoundtripTimestamp (wake t sl s).1 = lastRoundtripTimestamp s.
Proof.
  revert s. induction sl as [|[due key] sl IH]; intros s; simpl; [reflexivity|].
  destruct (due <=? t).
  - now rewrite IH.
  - specialize (IH s). now destruct (wake t sl s).
Qed.

Lemma NewService_lastRoundtripTimestamp (cfg : Config) (e : option error) (id : string)
  (metricNamespace : string) (registration : string -> string -> option string) s :
  NewService cfg e id metricNamespace registration = Ret (inl s) ->
  lastRoundtripTimestamp s = of_int 0.
Proof.
  unfold NewService. destruct e as [err|]; [discriminate|].
  destruct (EndToEnd_Enabled cfg).
  - unfold makeCounter, makeHistogram.
    destruct (registration metricNamespace "messages_produced_total"); simpl; [discriminate|].
    destruct (registration metricNamespace "messages_acked_total"); simpl; [discriminate|].
    destruct (registration metricNamespace "messages_received_total"); simpl; [discriminate|].
    destruct (registration metricNamespace "messages_committed_total"); simpl; [discriminate|].
    destruct (createHistogramBuckets (EndToEnd_Producer_AckSla cfg)); simpl; [|discriminate].
    destruct (registration metricNamespace "produce_latency_seconds"); simpl; [discriminate|].
    destruct (createHistogramBuckets (EndToEnd_Consumer_RoundtripSla cfg)); simpl; [|discriminate].
    destruct (registration metricNamespace "roundtrip_latency_seconds"); simpl; [discriminate|].
    destruct (createHistogramBuckets (EndToEnd_Consumer_CommitSla cfg)); simpl; [|discriminate].
    destruct (registration metricNamespace "commit_latency_seconds"); simpl; [discriminate|].
    intros [= <-]. reflexivity.
  - simpl. intros [= <-]. reflexivity.
Qed.

Lemma ensureCompatibility_lastRoundtripTimestamp s r :
  lastRoundtripTimestamp (ensureCompatibility s r).1 = lastRoundtripTimestamp s.
Proof.
  unfold ensureCompatibility. destruct r as [res|err]; [|reflexivity].
  destruct (LogDirs_Enabled (Cfg s)); [|reflexivity].
  destruct (negb _); reflexivity.
Qed.

Lemma Start_lastRoundtripTimestamp s r :
  lastRoundtripTimestamp (Start s r).1.1 = lastRoundtripTimestamp s.
Proof.
  unfold Start. rewrite <- (ensureCompatibility_lastRoundtripTimestamp s r).
  destruct (ensureCompatibility s r) as [s' [err|]]; reflexivity.
Qed.

Lemma onAck_lastRoundtripTimestamp s p d s' :
  onAck s p d = Ret s' -> lastRoundtripTimestamp s' = lastRoundtripTimestamp s.
Proof.
  unfold onAck. destruct (endToEndMessagesAcked s); [|discriminate]. simpl.
  destruct (endToEndAckLatency s); [|discriminate]. simpl. intros [= <-]. reflexivity.
Qed.

Lemma onRoundtrip_lastRoundtripTimestamp s p d s' :
  onRoundtrip s p d = Ret s' -> lastRoundtripTimestamp s' = lastRoundtripTimestamp s.
Proof.
  unfold onRoundtrip. destruct (d >? _); [intros [= <-]; reflexivity|].
  destruct (endToEndMessagesReceived s); [|discriminate]. simpl.
  destruct (endToEndRoundtripLatency s); [|discriminate]. simpl. intros [= <-]. reflexivity.
Qed.

Lemma onOffsetCommit_lastRoundtripTimestamp s p d s' :
  onOffsetCommit s p d = Ret s' -> lastRoundtripTimestamp s' = lastRoundtripTimestamp s.
Proof.
  unfold onOffsetCommit. destruct (endToEndCommitLatency s); [|discriminate]. simpl.
  destruct (d >? _); [intros [= <-]; reflexivity|].
  destruct (endToEndMessagesCommitted s); [|discriminate]. simpl. intros [= <-]. reflexivity.
Qed.

Lemma exec_lastRoundtripTimestamp (c : call) (w w' : @World Value) :
  exec c w = Ret w' ->
  lastRoundtripTimestamp (svc w') = lastRoundtripTimestamp (svc w).
Proof.
  destruct c; simpl.
  - intros [= <-]. apply Start_lastRoundtripTimestamp.
  - intros [= <-]. apply ensureCompatibility_lastRoundtripTimestamp.
  - intros [= <-]. reflexivity.
  - intros [= <-]. reflexivity.
  - intros [= <-]. reflexivity.
  - destruct (onAck (svc w) partitionId duration) as [s'|] eqn:E; [|discriminate].
    simpl. intros [= <-]. simpl. eapply onAck_lastRoundtripTimestamp, E.
  - destruct (onRoundtrip (svc w) partitionId duration) as [s'|] eqn:E; [|discriminate].
    simpl. intros [= <-]. simpl. eapply onRoundtrip_lastRoundtripTimestamp, E.
  - destruct (onOffsetCommit (svc w) partitionId duration) as [s'|] eqn:E; [|discriminate].
    simpl. intros [= <-]. simpl. eapply onOffsetCommit_lastRoundtripTimestamp, E.
  - intros [= <-]. rewrite advance_svc. apply wake_lastRoundtripTimestamp.
Qed.

(** C10: [NewService] sets [lastRoundtripTimestamp] to 0 and no call
    writes it, [onRoundtrip] of a message within the SLA included: it is 0
    in every state the service reaches. *)
Theorem lastRoundtripTimestamp_never_written (w : @World Value) :
  reachable w ->
  lastRoundtripTimestamp (svc w) = of_int 0 /\
  forall partitionId duration s',
    onRoundtrip (svc w) partitionId duration = Ret s' ->
    lastRoundtripTimestamp s' = of_int 0.
Proof.
  intros Hw.
  assert (H0 : lastRoundtripTimestamp (svc w) = of_int 0).
  { induction Hw as [cfg id ns reg s t0 Hnew|c w w' Hw IH Hexec].
    - simpl. eapply NewService_lastRoundtripTimestamp, Hnew.
    - rewrite (exec_lastRoundtripTimestamp _ _ _ Hexec). exact IH. }
  split; [exact H0|].
  intros p d s' Hs'. rewrite (onRoundtrip_lastRoundtripTimestamp _ _ _ _ Hs'). exact H0.
Qed.

End GateFacts.

Lemma ensureCompatibility_gate_witness :
  (@HasKey demo_kafka (@FromApiVersionsResponse demo_kafka [0; 1; 18]) 35 = false /\
   LogDirs_Enabled (Cfg demo_service) = true /\
   exists s',
     @ensureCompatibility string demo_kafka demo_service (inl [0; 1; 18]) = (s', None) /\
     LogDirs_Enabled (Cfg s') = false) /\
  @ensureCompatibility string demo_kafka demo_service (inr (ErrorString "timeout"))
  = (demo_service,
     Some (Errorf_w "kafka api versions couldn't be fetched: %w" (ErrorString "timeout"))).
Proof.
  destruct (@ensureCompatibility_gate string demo_kafka demo_service) as [Hoff Herr].
  split; [|apply Herr].
  split; [reflexivity|]. split; [reflexivity|].
  apply Hoff; reflexivity.
Defined.

Lemma NewService_demo :
  @NewService string demo_cfg None "minion-1" "kminion" fresh_registry
  = Ret (inl demo_service).
Proof. vm_compute. reflexivity. Qed.

Lemma demo_reachable :
  @reachable string demo_kafka
    (with_svc demo_world
       (set_endToEndRoundtripLatency
          (Some (prometheus.Observe (demo_histogram (5 * Second)) (Seconds (2 * Second))))
          (set_endToEndMessagesReceived (Some 1) demo_service))).
Proof.
  apply (@reachable_call string demo_kafka (CallOnRoundtrip 0 (2 * Second)) demo_world).
  - apply (@reachable_new string demo_kafka demo_cfg "minion-1" "kminion" fresh_registry).
    vm_compute. reflexivity.
  - vm_compute. reflexivity.
Defined.

Lemma lastRoundtripTimestamp_never_written_witness :
  lastRoundtripTimestamp
    (set_endToEndRoundtripLatency
       (Some (prometheus.Observe (demo_histogram (5 * Second)) (Seconds (2 * Second))))
       (set_endToEndMessagesReceived (Some 1) demo_service))
  = of_int 0.
Proof.
  exact (proj1 (@lastRoundtripTimestamp_never_written string demo_kafka _ demo_reachable)).
Defined.

(** * Further properties of the bucket sizer *)

(** A negative integer of at most 53 bits converts exactly, too. *)
Lemma of_int_neg (p : positive) :
  Zpos (digits2_pos p) <= 53 ->
  of_int (Zneg p) = S754_finite true (normal_mantissa p) (Zpos (digits2_pos p) - 53).
Proof.
  intros Hd. unfold of_int, binary_normalize, binary_round, shl_align.
  assert (Hf : fexp prec emax (Zpos (digits2_pos p) + 0) = Zpos (digits2_pos p) - 53).
  { unfold fexp, emin, prec, emax. lia. }
  rewrite Hf. unfold normal_mantissa.
  replace (Zpos (digits2_pos p) - 53 - 0) with (- (53 - Zpos (digits2_pos p))) by lia.
  destruct (53 - Zpos (digits2_pos p)) as [|d|d] eqn:E; try lia; simpl Z.opp; cbv iota.
  - replace (Zpos (digits2_pos p) - 53) with 0 by lia.
    apply binary_round_aux_normal; lia.
  - apply binary_round_aux_normal; [rewrite iter_xO_digits|]; lia.
Qed.

Lemma digits2_pos_bound (p : positive) :
  Zpos p < 2 ^ 53 -> Zpos (digits2_pos p) <= 53.
Proof.
  intros Hp. rewrite digits2_pos_log2.
  assert (Z.log2 (Zpos p) < 53) by (apply Z.log2_lt_pow2; lia). lia.
Qed.

(** [math.Logb] does not look at the sign. *)
Lemma Logb_of_int_opp (k : Z) :
  Z.abs k < 2 ^ 53 -> Logb (of_int (- k)) = Logb (of_int k).
Proof.
  intros Hk. destruct k as [|p|p]; [reflexivity| |].
  - change (- Zpos p) with (Zneg p).
    rewrite of_int_neg, of_int_pos by (apply digits2_pos_bound; lia). reflexivity.
  - change (- Zneg p) with (Zpos p).
    rewrite of_int_neg, of_int_pos by (apply digits2_pos_bound; lia). reflexivity.
Qed.

Lemma quot_quot_opp (d : Z) :
  Z.quot (Milliseconds (- d)) 10 = - Z.quot (Milliseconds d) 10.
Proof.
  unfold Milliseconds, Millisecond.
  rewrite Z.quot_opp_l by lia. apply Z.quot_opp_l. lia.
Qed.

Lemma quot_quot_abs_bound (d : Z) :
  - max_int64 <= d <= max_int64 ->
  Z.abs (Z.quot (Milliseconds d) 10) < 2 ^ 53.
Proof.
  intros Hd.
  assert (Hpos : forall x, 0 <= x <= max_int64 -> Z.abs (Z.quot (Milliseconds x) 10) < 2 ^ 53).
  { intros x Hx. destruct (quot_bounds x Hx) as (_ & _ & Hk). lia. }
  destruct (Z.le_gt_cases 0 d) as [H0|H0].
  - apply Hpos. lia.
  - replace d with (- (- d)) by lia. rewrite quot_quot_opp, Z.abs_opp.
    apply Hpos. lia.
Qed.

Lemma createHistogramBuckets_opp_eq (maxLatency : Z) :
  - max_int64 <= maxLatency <= max_int64 ->
  createHistogramBuckets (- maxLatency) = createHistogramBuckets maxLatency.
Proof.
  intros Hd. unfold createHistogramBuckets.
  rewrite quot_quot_opp, Logb_of_int_opp by (apply quot_quot_abs_bound; exact Hd).
  reflexivity.
Qed.

(** X2: a negative [maxLatency] is sized like its absolute value: the two
    integer divisions truncate towards zero and [math.Logb] drops the
    sign. *)
Theorem createHistogramBuckets_opp (maxLatency : Z) :
  - max_int64 <= maxLatency <= max_int64 ->
  createHistogramBuckets (- maxLatency) = createHistogramBuckets maxLatency.
Proof. exact (createHistogramBuckets_opp_eq maxLatency). Qed.

Lemma createHistogramBuckets_opp_witness :
  - max_int64 <= 5 * Second <= max_int64 /\
  createHistogramBuckets (- (5 * Second)) = createHistogramBuckets (5 * Second).
Proof.
  split; [unfold max_int64, Second; lia|].
  apply (createHistogramBuckets_opp (5 * Second)). unfold max_int64, Second. lia.
Defined.

(** The boundaries returned from 10 milliseconds on, one by one. *)
Lemma createHistogramBuckets_closed_form (maxLatency : Z) :
  10 * Millisecond <= maxLatency <= max_int64 ->
  exists buckets,
    createHistogramBuckets maxLatency = Ret buckets /\
    Z.of_nat (length buckets) = Z.log2 (Z.quot (Milliseconds maxLatency) 10) + 3 /\
    (3 <= length buckets <= 42)%nat /\
    forall (i : nat) x, buckets !! i = Some x ->
      x = S754_finite false floor_mantissa (-60 + Z.of_nat i).
Proof.
  intros Hd.
  destruct (createHistogramBuckets_from_10ms maxLatency Hd) as (Hn & Heq).
  destruct (quot_bounds maxLatency) as (Hms & Hk & Hk53);
    [unfold Millisecond in Hd; lia|].
  set (k := Z.quot (Milliseconds maxLatency) 10) in *.
  assert (Hk40 : k < 2 ^ 40) by (unfold Millisecond, max_int64 in *; lia).
  assert (Hk1 : 1 <= k) by (unfold Millisecond in *; lia).
  assert (Hlog : 0 <= Z.log2 k < 40)
    by (split; [apply Z.log2_nonneg | apply Z.log2_lt_pow2; lia]).
  rewrite floor_repr in Heq.
  eexists. split; [exact Heq|]. rewrite fill_length. split; [lia|]. split; [lia|].
  intros i x Hx.
  assert (Hi : (i < Z.to_nat (Z.log2 k + 3))%nat).
  { apply lookup_lt_Some in Hx. now rewrite fill_length in Hx. }
  rewrite fill_floor_lookup in Hx by lia. now injection Hx as <-.
Qed.

Lemma createHistogramBuckets_cases (maxLatency : Z) :
  min_int64 <= maxLatency <= max_int64 ->
  if Z.abs maxLatency <? 10 * Millisecond
  then createHistogramBuckets maxLatency = Panic "ExponentialBuckets needs a positive count"
  else exists buckets,
      createHistogramBuckets maxLatency = Ret buckets /\
      (3 <= length buckets <= 42)%nat /\
      forall (i : nat) x, buckets !! i = Some x ->
        x = S754_finite false floor_mantissa (-60 + Z.of_nat i).
Proof.
  intros Hd. destruct (Z.abs maxLatency <? 10 * Millisecond) eqn:E.
  - apply Z.ltb_lt in E. apply createHistogramBuckets_below_10ms. lia.
  - apply Z.ltb_ge in E.
    assert (Hpos : forall d, 10 * Millisecond <= d <= max_int64 ->
              exists buckets,
                createHistogramBuckets d = Ret buckets /\
                (3 <= length buckets <= 42)%nat /\
                forall (i : nat) x, buckets !! i = Some x ->
                  x = S754_finite false floor_mantissa (-60 + Z.of_nat i)).
    { intros d Hd'. destruct (createHistogramBuckets_closed_form d Hd')
        as (bs & Heq & _ & Hlen & Hat). exists bs. auto. }
    destruct (Z.le_gt_cases 0 maxLatency) as [H0|H0].
    + apply Hpos. lia.
    + destruct (Z.eq_dec maxLatency min_int64) as [->|Hne].
      * eexists. split; [vm_compute; reflexivity|]. split; [simpl; lia|].
        intros i x Hx.
        do 42 (destruct i as [|i]; [injection Hx as <-; reflexivity|]).
        discriminate Hx.
      * assert (Hr : - max_int64 <= - maxLatency <= max_int64)
          by (unfold min_int64, max_int64 in *; lia).
        destruct (Hpos (- maxLatency)) as (bs & Heq & Hrest); [lia|].
        rewrite createHistogramBuckets_opp_eq in Heq
          by (unfold min_int64, max_int64 in *; lia).
        exists bs. auto.
Qed.

(** X1: over the whole range of a [time.Duration], [createHistogramBuckets]
    panics exactly when [maxLatency] is less than 10 milliseconds in
    absolute value; otherwise it returns between 3 and 42 boundaries, the
    [i]-th being the float64 constant 0.005 with its exponent raised by
    [i]. *)
Theorem createHistogramBuckets_total (maxLatency : Z) :
  min_int64 <= maxLatency <= max_int64 ->
  if Z.abs maxLatency <? 10 * Millisecond
  then createHistogramBuckets maxLatency = Panic "ExponentialBuckets needs a positive count"
  else exists buckets,
      createHistogramBuckets maxLatency = Ret buckets /\
      (3 <= length buckets <= 42)%nat /\
      forall (i : nat) x, buckets !! i = Some x ->
        x = S754_finite false floor_mantissa (-60 + Z.of_nat i).
Proof. exact (createHistogramBuckets_cases maxLatency). Qed.

Lemma createHistogramBuckets_total_witness :
  min_int64 <= - (30 * Millisecond) <= max_int64 /\
  exists buckets,
    createHistogramBuckets (- (30 * Millisecond)) = Ret buckets /\
    length buckets = 4%nat.
Proof.
  split; [unfold min_int64, max_int64, Millisecond; lia|].
  assert (H := createHistogramBuckets_total (- (30 * Millisecond))).
  change (Z.abs (- (30 * Millisecond)) <? 10 * Millisecond) with false in H.
  destruct H as (bs & Heq & _); [unfold min_int64, max_int64, Millisecond; lia|].
  exists bs. split; [exact Heq|].
  vm_compute in Heq. injection Heq as <-. reflexivity.
Defined.

Lemma fill_prefix (start factor : float64) (n m : nat) :
  (n <= m)%nat ->
  prometheus.fill start factor n `prefix_of` prometheus.fill start factor m.
Proof.
  revert start m. induction n as [|n IH]; intros start m Hnm.
  - apply prefix_nil.
  - destruct m as [|m]; [lia|]. simpl. apply prefix_cons. apply IH. lia.
Qed.

(** X3: a larger [maxLatency] keeps every boundary of a smaller one and
    only adds boundaries after them. *)
Theorem createHistogramBuckets_monotone (d1 d2 : Z) :
  10 * Millisecond <= d1 -> d1 <= d2 -> d2 <= max_int64 ->
  exists b1 b2,
    createHistogramBuckets d1 = Ret b1 /\
    createHistogramBuckets d2 = Ret b2 /\
    b1 `prefix_of` b2.
Proof.
  intros H1 H12 H2.
  destruct (createHistogramBuckets_from_10ms d1) as (Hn1 & Heq1); [lia|].
  destruct (createHistogramBuckets_from_10ms d2) as (Hn2 & Heq2); [lia|].
  do 2 eexists. split; [exact Heq1|]. split; [exact Heq2|].
  apply fill_prefix.
  assert (Hdiv : forall d, 0 <= d -> Z.quot (Milliseconds d) 10 = d / Millisecond / 10).
  { intros d Hd. unfold Milliseconds.
    rewrite (Z.quot_div_nonneg d) by (unfold Millisecond; lia).
    apply Z.quot_div_nonneg; [|lia]. apply Z.div_pos; unfold Millisecond; lia. }
  assert (Hq : Z.quot (Milliseconds d1) 10 <= Z.quot (Milliseconds d2) 10).
  { rewrite !Hdiv by (unfold Millisecond in *; lia).
    apply Z.div_le_mono; [lia|]. apply Z.div_le_mono; unfold Millisecond; lia. }
  apply Z.log2_le_mono in Hq. lia.
Qed.

Lemma createHistogramBuckets_monotone_witness :
  10 * Millisecond <= 1 * Second /\ 1 * Second <= 5 * Second /\ 5 * Second <= max_int64 /\
  exists b1 b2,
    createHistogramBuckets (1 * Second) = Ret b1 /\
    createHistogramBuckets (5 * Second) = Ret b2 /\
    b1 `prefix_of` b2 /\ length b1 = 9%nat /\ length b2 = 11%nat.
Proof.
  split; [unfold Millisecond, Second; lia|]. split; [unfold Second; lia|].
  split; [unfold Second, max_int64; lia|].
  destruct (createHistogramBuckets_monotone (1 * Second) (5 * Second))
    as (b1 & b2 & H1 & H2 & Hp);
    [unfold Millisecond, Second; lia|unfold Second; lia|unfold Second, max_int64; lia|].
  exists b1, b2. split; [exact H1|]. split; [exact H2|]. split; [exact Hp|].
  vm_compute in H1. injection H1 as <-. vm_compute in H2. injection H2 as <-.
  split; reflexivity.
Defined.

(** The last of [j + 3] boundaries is below 2.01 times every latency of
    at least [2^j * 10] milliseconds. *)
Lemma floor_last_upper_bound (maxLatency j : Z) :
  0 <= j -> 2 ^ j * (10 * Millisecond) <= maxLatency ->
  (inject_Z (Zpos floor_mantissa) * 2 ^ (j - 58)
   <= (201 # 100) * (inject_Z maxLatency / inject_Z Second))%Q.
Proof.
  intros Hj Hd.
  replace (j - 58) with (j + (-58)) by lia.
  rewrite Qpower_plus by discriminate.
  rewrite <- (Zpower_Qpower 2 j) by exact Hj.
  assert (Hp : 0 < 2 ^ j) by (apply Z.pow_pos_nonneg; lia).
  apply Qle_trans with (inject_Z (2 ^ j) * (201 # 10000))%Q.
  - rewrite (Qmult_comm (inject_Z (Zpos floor_mantissa))), <- Qmult_assoc.
    apply Qmult_le_l; [unfold Qlt, inject_Z; simpl; lia|].
    vm_compute. discriminate.
  - unfold Qdiv. rewrite Qmult_assoc.
    apply Qle_shift_div_l; [reflexivity|].
    unfold Qle, Qmult, inject_Z, Second, Millisecond in *. simpl. lia.
Qed.

(** X4: from 10 milliseconds on, the last boundary overshoots
    [maxLatency], in seconds, by a factor of less than 2.01. *)
Theorem createHistogramBuckets_last_below_double (maxLatency : Z) :
  10 * Millisecond <= maxLatency <= max_int64 ->
  exists buckets l q,
    createHistogramBuckets maxLatency = Ret buckets /\
    last buckets = Some l /\ to_Q l = Some q /\
    (q <= (201 # 100) * (inject_Z maxLatency / inject_Z Second))%Q.
Proof.
  intros Hd.
  destruct (createHistogramBuckets_closed_form maxLatency Hd)
    as (bs & Heq & Hlen & Hlen3 & Hat).
  destruct (quot_bounds maxLatency) as (Hms & Hk & Hk53);
    [unfold Millisecond in Hd; lia|].
  set (k := Z.quot (Milliseconds maxLatency) 10) in *.
  assert (Hk1 : 1 <= k) by (unfold Millisecond in *; lia).
  assert (Hlog : 0 <= Z.log2 k) by apply Z.log2_nonneg.
  destruct (last bs) as [l|] eqn:Hl.
  - exists bs, l. eexists. split; [exact Heq|]. split; [exact Hl|].
    rewrite last_lookup in Hl. apply Hat in Hl. subst l.
    split; [reflexivity|].
    replace (-60 + Z.of_nat (Init.Nat.pred (length bs))) with (Z.log2 k - 58) by lia.
    apply floor_last_upper_bound; [lia|].
    destruct (Z.log2_spec k) as [Hlo _]; [lia|].
    unfold Millisecond in *. nia.
  - apply last_None in Hl. subst bs. simpl in Hlen3. lia.
Qed.

Lemma createHistogramBuckets_last_below_double_witness :
  10 * Millisecond <= 20 * Millisecond <= max_int64 /\
  exists buckets l q,
    createHistogramBuckets (20 * Millisecond) = Ret buckets /\
    last buckets = Some l /\ to_Q l = Some q /\
    (q <= (201 # 100) * (inject_Z (20 * Millisecond) / inject_Z Second))%Q.
Proof.
  split; [unfold Millisecond, max_int64; lia|].
  apply (createHistogramBuckets_last_below_double (20 * Millisecond)).
  unfold Millisecond, max_int64. lia.
Defined.

(** * Further properties of the service *)

Section RunFacts.

Context {Value : Type}.
Context `{Kafka}.

Implicit Types (s : @Service Value) (w : @World Value).

Lemma set_nothing s :
  set_cache (cache s)
    (set_logger (logger s ++ [])
       (set_Cfg (set_LogDirs_Enabled (LogDirs_Enabled (Cfg s)) (Cfg s)) s)) = s.
Proof. destruct s as [[] ? ? ? ? ? ? ? ? ? ? ?]. simpl. now rewrite app_nil_r. Qed.

Lemma change_cache s (m : gmap string Value) : change s (set_cache m s).
Proof.
  rewrite <- (set_nothing s) at 2.
  apply (change_state s (LogDirs_Enabled (Cfg s)) [] m). auto.
Qed.

Lemma change_refl s : change s s.
Proof.
  rewrite <- (set_nothing s) at 2.
  apply (change_state s (LogDirs_Enabled (Cfg s)) [] (cache s)). auto.
Qed.

Lemma ensureCompatibility_change s r : change s (ensureCompatibility s r).1.
Proof.
  unfold ensureCompatibility. destruct r as [res|err]; [|apply change_refl].
  destruct (LogDirs_Enabled (Cfg s)) eqn:E; [|apply change_refl].
  destruct (negb _); [|apply change_refl]. simpl.
  match goal with |- change s ?s' =>
    replace s' with
      (set_cache (cache s)
         (set_logger (logger s ++
            ["describing log dirs is enabled, but it is not supported because your Kafka cluster version is too old. feature will be disabled"])
            (set_Cfg (set_LogDirs_Enabled false (Cfg s)) s)))
      by reflexivity
  end.
  apply change_state. discriminate.
Qed.

Lemma Start_svc s r : (Start s r).1.1 = (ensureCompatibility s r).1.
Proof. unfold Start. destruct (ensureCompatibility s r) as [s' [err|]]; reflexivity. Qed.

Lemma wake_cache (t : Z) (sl : list (Z * string)) s :
  (wake t sl s).1 = set_cache (cache (wake t sl s).1) s.
Proof.
  revert s. induction sl as [|[due key] sl IH]; intros s; simpl.
  - destruct s. reflexivity.
  - destruct (due <=? t).
    + rewrite IH at 1. destruct s. reflexivity.
    + specialize (IH s). destruct (wake t sl s) as [s' rest]. exact IH.
Qed.

(** Every call that returns changes the service in one of the ways of
    [change]. *)
Lemma exec_change (c : call) w w' :
  exec c w = Ret w' -> change (svc w) (svc w').
Proof.
  destruct c; simpl.
  - intros [= <-]. simpl. rewrite Start_svc. apply ensureCompatibility_change.
  - intros [= <-]. apply ensureCompatibility_change.
  - intros [= <-]. apply change_refl.
  - intros [= <-]. apply change_cache.
  - intros [= <-]. apply change_cache.
  - unfold onAck.
    destruct (endToEndMessagesAcked (svc w)) as [c|] eqn:Hc; [|discriminate]. simpl.
    destruct (endToEndAckLatency (svc w)) as [h|] eqn:Hh; [|discriminate]. simpl.
    intros [= <-]. simpl. now apply change_ack.
  - unfold onRoundtrip.
    destruct (duration >? EndToEnd_Consumer_RoundtripSla (Cfg (svc w))) eqn:E.
    + simpl. intros [= <-]. apply change_refl.
    + destruct (endToEndMessagesReceived (svc w)) as [c|] eqn:Hc; [|discriminate]. simpl.
      destruct (endToEndRoundtripLatency (svc w)) as [h|] eqn:Hh; [|discriminate]. simpl.
      intros [= <-]. simpl. apply change_roundtrip; [|assumption..].
      rewrite Z.gtb_ltb in E. apply Z.ltb_ge in E. exact E.
  - unfold onOffsetCommit.
    destruct (endToEndCommitLatency (svc w)) as [h|] eqn:Hh; [|discriminate]. simpl.
    destruct (duration >? EndToEnd_Consumer_CommitSla (Cfg (svc w))) eqn:E.
    + simpl. intros [= <-]. simpl. apply change_commit_late; [|assumption].
      rewrite Z.gtb_ltb in E. apply Z.ltb_lt in E. exact E.
    + destruct (endToEndMessagesCommitted (svc w)) as [c|] eqn:Hc; [|discriminate]. simpl.
      intros [= <-]. simpl. apply change_commit; [|assumption..].
      rewrite Z.gtb_ltb in E. apply Z.ltb_ge in E. exact E.
  - intros [= <-]. rewrite advance_svc. rewrite wake_cache. apply change_cache.
Qed.

Lemma run_changes (cs : list call) w w' :
  run cs w = Ret w' -> rtc change (svc w) (svc w').
Proof.
  revert w. induction cs as [|c cs IH]; intros w; simpl.
  - intros [= <-]. apply rtc_refl.
  - destruct (exec c w) as [w1|] eqn:E; [|discriminate]. simpl. intros Hrun.
    eapply rtc_l; [eapply exec_change, E|]. now apply IH.
Qed.

Lemma run_reachable (cs : list call) w w' :
  reachable w -> run cs w = Ret w' -> reachable w'.
Proof.
  revert w. induction cs as [|c cs IH]; intros w Hw; simpl.
  - now intros [= <-].
  - destruct (exec c w) as [w1|] eqn:E; [|discriminate]. simpl.
    apply IH. eapply reachable_call; eassumption.
Qed.

End RunFacts.

Section MetricFacts.

Context {Value : Type}.
Context `{Kafka}.

Implicit Types (s : @Service Value) (w : @World Value).

(** What [NewService] builds when the storage is there. *)
Lemma NewService_built (cfg : Config) (id : string)
  (metricNamespace : string) (registration : string -> string -> option string) s :
  NewService cfg None id metricNamespace registration = Ret (inl s) ->
  Cfg s = cfg /\ logger s = [] /\ cache s = ∅ /\ minionID s = id /\
  if EndToEnd_Enabled cfg then
    endToEndMessagesProduced s = Some 0 /\
    endToEndMessagesAcked s = Some 0 /\
    endToEndMessagesReceived s = Some 0 /\
    endToEndMessagesCommitted s = Some 0 /\
    (exists b, createHistogramBuckets (EndToEnd_Producer_AckSla cfg) = Ret b /\
               endToEndAckLatency s = Some (prometheus.mkHistogram b [])) /\
    (exists b, createHistogramBuckets (EndToEnd_Consumer_RoundtripSla cfg) = Ret b /\
               endToEndRoundtripLatency s = Some (prometheus.mkHistogram b [])) /\
    (exists b, createHistogramBuckets (EndToEnd_Consumer_CommitSla cfg) = Ret b /\
               endToEndCommitLatency s = Some (prometheus.mkHistogram b []))
  else no_metrics s.
Proof.
  unfold NewService. destruct (EndToEnd_Enabled cfg).
  - unfold makeCounter, makeHistogram.
    destruct (registration metricNamespace "messages_produced_total"); simpl; [discriminate|].
    destruct (registration metricNamespace "messages_acked_total"); simpl; [discriminate|].
    destruct (registration metricNamespace "messages_received_total"); simpl; [discriminate|].
    destruct (registration metricNamespace "messages_committed_total"); simpl; [discriminate|].
    destruct (createHistogramBuckets (EndToEnd_Producer_AckSla cfg)) as [b1|];
      simpl; [|discriminate].
    destruct (registration metricNamespace "produce_latency_seconds"); simpl; [discriminate|].
    destruct (createHistogramBuckets (EndToEnd_Consumer_RoundtripSla cfg)) as [b2|];
      simpl; [|discriminate].
    destruct (registration metricNamespace "roundtrip_latency_seconds"); simpl; [discriminate|].
    destruct (createHistogramBuckets (EndToEnd_Consumer_CommitSla cfg)) as [b3|];
      simpl; [|discriminate].
    destruct (registration metricNamespace "commit_latency_seconds"); simpl; [discriminate|].
    intros [= <-]. simpl. repeat split; eauto.
  - simpl. intros [= <-]. unfold no_metrics. simpl. repeat split.
Qed.

Lemma change_enabled s s' :
  change s s' -> EndToEnd_Enabled (Cfg s') = EndToEnd_Enabled (Cfg s).
Proof. intros Hc. destruct Hc; reflexivity. Qed.

Lemma change_metrics s s' :
  change s s' ->
  (has_metrics s -> has_metrics s') /\ (no_metrics s -> no_metrics s').
Proof.
  intros Hc. destruct Hc; unfold has_metrics, no_metrics; simpl; split;
    intros (M1 & M2 & M3 & M4 & M5 & M6 & M7);
    repeat split; try assumption; try (eexists; reflexivity); congruence.
Qed.

Lemma reachable_metrics w :
  reachable w ->
  if EndToEnd_Enabled (Cfg (svc w)) then has_metrics (svc w) else no_metrics (svc w).
Proof.
  intros Hw. induction Hw as [cfg id ns reg s t0 Hnew|c w w' Hw IH Hexec].
  - simpl. destruct (NewService_built _ _ _ _ _ Hnew) as (Hcfg & _ & _ & _ & Hm).
    rewrite Hcfg. destruct (EndToEnd_Enabled cfg); [|exact Hm].
    destruct Hm as (H1 & H2 & H3 & H4 & (b1 & _ & H5) & (b2 & _ & H6) & (b3 & _ & H7)).
    unfold has_metrics. rewrite H1, H2, H3, H4, H5, H6, H7. repeat split; eexists; reflexivity.
  - apply exec_change in Hexec.
    rewrite (change_enabled _ _ Hexec).
    destruct (change_metrics _ _ Hexec) as [Hhas Hno].
    destruct (EndToEnd_Enabled (Cfg (svc w))); auto.
Qed.

(** X5: on a service built with the end-to-end test enabled, no call of
    [service.go] ever panics, whatever calls came before. *)
Theorem enabled_service_never_panics w (c : call) :
  reachable w ->
  EndToEnd_Enabled (Cfg (svc w)) = true ->
  exists w', exec c w = Ret w'.
Proof.
  intros Hw Hen. apply reachable_metrics in Hw. rewrite Hen in Hw.
  destruct Hw as (_ & [a Ha] & [r Hr] & [m Hm] & [ha Hha] & [hr Hhr] & [hc Hhc]).
  destruct c; simpl; try (eexists; reflexivity).
  - unfold onAck. rewrite Ha. simpl. rewrite Hha. simpl. eexists; reflexivity.
  - unfold onRoundtrip. destruct (_ >? _); [eexists; reflexivity|].
    rewrite Hr. simpl. rewrite Hhr. simpl. eexists; reflexivity.
  - unfold onOffsetCommit. rewrite Hhc. simpl. destruct (_ >? _); [eexists; reflexivity|].
    rewrite Hm. simpl. eexists; reflexivity.
Qed.

(** X6: on a service built with the end-to-end test disabled, [onAck] and
    [onOffsetCommit] panic on the nil metrics for every duration, and
    [onRoundtrip] panics exactly for the durations within the SLA. *)
Theorem disabled_service_callbacks_panic w (partitionId duration : Z) :
  reachable w ->
  EndToEnd_Enabled (Cfg (svc w)) = false ->
  onAck (svc w) partitionId duration = Panic nil_dereference /\
  onOffsetCommit (svc w) partitionId duration = Panic nil_dereference /\
  onRoundtrip (svc w) partitionId duration
  = if duration >? EndToEnd_Consumer_RoundtripSla (Cfg (svc w))
    then Ret (svc w) else Panic nil_dereference.
Proof.
  intros Hw Hen. apply reachable_metrics in Hw. rewrite Hen in Hw.
  destruct Hw as (_ & Ha & Hr & Hm & Hha & Hhr & Hhc).
  unfold onAck, onOffsetCommit, onRoundtrip. rewrite Ha, Hhc, Hr. simpl.
  repeat split.
Qed.

Lemma change_counts s s' :
  change s s' ->
  counts (endToEndMessagesAcked s) (endToEndAckLatency s) ->
  counts (endToEndMessagesReceived s) (endToEndRoundtripLatency s) ->
  counts_within (endToEndMessagesCommitted s) (endToEndCommitLatency s) ->
  counts (endToEndMessagesAcked s') (endToEndAckLatency s') /\
  counts (endToEndMessagesReceived s') (endToEndRoundtripLatency s') /\
  counts_within (endToEndMessagesCommitted s') (endToEndCommitLatency s').
Proof.
  intros Hc. destruct Hc as [s b lg m Hb|s c h d Hc Hh|s c h d Hd Hc Hh|s h d Hd Hh|s c h d Hd Hc Hh];
    simpl; intros Ha Hr Hm.
  - auto.
  - split; [|auto]. rewrite Hc, Hh in Ha. simpl in *. rewrite length_app. simpl. lia.
  - split; [auto|]. split; [|auto].
    rewrite Hc, Hh in Hr. simpl in *. rewrite length_app. simpl. lia.
  - split; [auto|]. split; [auto|]. rewrite Hh in Hm.
    destruct (endToEndMessagesCommitted s); [|exact Hm].
    simpl in *. rewrite length_app. simpl. lia.
  - split; [auto|]. split; [auto|]. rewrite Hc, Hh in Hm. simpl in *.
    rewrite length_app. simpl. lia.
Qed.

(** X7: in every state the service reaches, the acked counter is the
    number of observations in the ack histogram, the received counter the
    number of observations in the roundtrip histogram, and the committed
    counter at most the number of observations in the commit histogram. *)
Theorem counters_count_observations w :
  reachable w ->
  counts (endToEndMessagesAcked (svc w)) (endToEndAckLatency (svc w)) /\
  counts (endToEndMessagesReceived (svc w)) (endToEndRoundtripLatency (svc w)) /\
  counts_within (endToEndMessagesCommitted (svc w)) (endToEndCommitLatency (svc w)).
Proof.
  intros Hw. induction Hw as [cfg id ns reg s t0 Hnew|c w w' Hw IH Hexec].
  - simpl. destruct (NewService_built _ _ _ _ _ Hnew) as (_ & _ & _ & _ & Hm).
    destruct (EndToEnd_Enabled cfg).
    + destruct Hm as (H1 & H2 & H3 & H4 & (b1 & _ & H5) & (b2 & _ & H6) & (b3 & _ & H7)).
      rewrite H2, H3, H4, H5, H6, H7. simpl. repeat split; lia.
    + destruct Hm as (H1 & H2 & H3 & H4 & H5 & H6 & H7).
      rewrite H2, H3, H4, H5, H6, H7. simpl. auto.
  - destruct IH as (Ha & Hr & Hm).
    exact (change_counts _ _ (exec_change _ _ _ Hexec) Ha Hr Hm).
Qed.

(** X8: in every state the service reaches, each observation in the
    roundtrip histogram is the duration, in seconds, of a roundtrip that
    was within [RoundtripSla]. *)
Theorem roundtrip_observations_within_sla w (h : prometheus.Histogram) (x : float64) :
  reachable w ->
  endToEndRoundtripLatency (svc w) = Some h ->
  x ∈ prometheus.observations h ->
  exists d, d <= EndToEnd_Consumer_RoundtripSla (Cfg (svc w)) /\ x = Seconds d.
Proof.
  intros Hw. revert h x. induction Hw as [cfg id ns reg s t0 Hnew|c w w' Hw IH Hexec]; intros h x.
  - simpl. destruct (NewService_built _ _ _ _ _ Hnew) as (_ & _ & _ & _ & Hm).
    destruct (EndToEnd_Enabled cfg).
    + destruct Hm as (_ & _ & _ & _ & _ & (b2 & _ & H6) & _).
      rewrite H6. intros [= <-]. simpl. intros Hx. inversion Hx.
    + destruct Hm as (_ & _ & _ & _ & _ & H6 & _). rewrite H6. discriminate.
  - apply exec_change in Hexec.
    destruct Hexec as [s b lg m Hb|s c0 h0 d Hc Hh|s c0 h0 d Hd Hc Hh|s h0 d Hd Hh|s c0 h0 d Hd Hc Hh];
      simpl; try (now apply IH).
    intros [= <-]. simpl. intros Hx. apply elem_of_app in Hx. destruct Hx as [Hx|Hx].
    + eapply IH; eassumption.
    + apply list_elem_of_singleton in Hx. exists d. auto.
Qed.

End MetricFacts.

Lemma enabled_service_never_panics_witness :
  exists w',
    @exec string demo_kafka (CallOnOffsetCommit 0 (1200 * Millisecond))
      (with_svc demo_world
         (set_endToEndRoundtripLatency
            (Some (prometheus.Observe (demo_histogram (5 * Second)) (Seconds (2 * Second))))
            (set_endToEndMessagesReceived (Some 1) demo_service)))
    = Ret w'.
Proof.
  apply (@enabled_service_never_panics string demo_kafka _ _ demo_reachable).
  reflexivity.
Defined.

Lemma demo_off_reachable : @reachable string demo_kafka demo_world_off.
Proof.
  apply (@reachable_new string demo_kafka demo_cfg_off "minion-2" "kminion" fresh_registry).
  vm_compute. reflexivity.
Defined.

Lemma disabled_service_callbacks_panic_witness :
  EndToEnd_Enabled (Cfg (svc demo_world_off)) = false /\
  onAck (svc demo_world_off) 0 (2 * Second) = Panic nil_dereference /\
  onOffsetCommit (svc demo_world_off) 0 (2 * Second) = Panic nil_dereference /\
  onRoundtrip (svc demo_world_off) 0 (2 * Second) = Ret (svc demo_world_off).
Proof.
  split; [reflexivity|].
  exact (@disabled_service_callbacks_panic string demo_kafka demo_world_off 0 (2 * Second)
           demo_off_reachable eq_refl).
Defined.

Lemma counters_count_observations_witness :
  counts (Some 0) (Some (demo_histogram (5 * Second))) /\
  counts (Some 1)
    (Some (prometheus.Observe (demo_histogram (5 * Second)) (Seconds (2 * Second)))) /\
  counts_within (Some 0) (Some (demo_histogram (1 * Second))).
Proof.
  exact (@counters_count_observations string demo_kafka _ demo_reachable).
Defined.

Lemma roundtrip_observations_within_sla_witness :
  exists d, d <= 5 * Second /\ Seconds (2 * Second) = Seconds d.
Proof.
  apply (@roundtrip_observations_within_sla string demo_kafka _
           (prometheus.Observe (demo_histogram (5 * Second)) (Seconds (2 * Second)))
           (Seconds (2 * Second)) demo_reachable eq_refl).
  apply list_elem_of_singleton. reflexivity.
Defined.

Section HistoryFacts.

Context {Value : Type}.
Context `{Kafka}.

Implicit Types (s : @Service Value) (w : @World Value).

Lemma grows_refl (h : option prometheus.Histogram) : grows h h.
Proof. destruct h; simpl; auto. Qed.

Lemma grows_trans (a b c : option prometheus.Histogram) :
  grows a b -> grows b c -> grows a c.
Proof.
  destruct a, b, c; simpl; try tauto.
  intros [E1 P1] [E2 P2]. split; [congruence|]. etransitivity; eassumption.
Qed.

Lemma grows_Observe (o : option prometheus.Histogram) (h : prometheus.Histogram) (v : float64) :
  o = Some h -> grows o (Some (prometheus.Observe h v)).
Proof. intros ->. simpl. split; [reflexivity|]. now apply prefix_app_r. Qed.

Lemma counts_up_refl (c : option prometheus.Counter) : counts_up c c.
Proof. destruct c; simpl; [lia|auto]. Qed.

Lemma counts_up_trans (a b c : option prometheus.Counter) :
  counts_up a b -> counts_up b c -> counts_up a c.
Proof. destruct a, b, c; simpl; try tauto. lia. Qed.

Lemma counts_up_Inc (o : option prometheus.Counter) (c : prometheus.Counter) :
  o = Some c -> counts_up o (Some (c + 1)).
Proof. intros ->. simpl. lia. Qed.

Lemma changes_keep s s' : rtc change s s' -> keeps s s'.
Proof.
  intros Hc. induction Hc as [s|s s1 s' Hstep _ IH].
  - unfold keeps. repeat split; auto.
  - assert (H1 : keeps s s1).
    { destruct Hstep; unfold keeps; simpl; repeat split; auto.
      now apply prefix_app_r. }
    unfold keeps in *.
    destruct H1 as (A1 & A2 & A3 & A4 & A5 & A6 & A7 & A8).
    destruct IH as (B1 & B2 & B3 & B4 & B5 & B6 & B7 & B8).
    repeat split; try congruence; [auto|etransitivity; eassumption].
Qed.

Lemma changes_record s s' : rtc change s s' -> recorded s s'.
Proof.
  intros Hc. induction Hc as [s|s s1 s' Hstep _ IH].
  - unfold recorded. repeat split; auto using grows_refl, counts_up_refl.
  - assert (H1 : recorded s s1).
    { destruct Hstep; unfold recorded; simpl;
        repeat split; auto using grows_refl, counts_up_refl, grows_Observe, counts_up_Inc. }
    unfold recorded in *.
    destruct H1 as (A1 & A2 & A3 & A4 & A5 & A6 & A7).
    destruct IH as (B1 & B2 & B3 & B4 & B5 & B6 & B7).
    repeat split; [congruence|eauto using counts_up_trans, grows_trans..].
Qed.

(** X9: whatever calls are made, the scrape mode, the end-to-end switch,
    the three SLAs and the minion id stay as they were; the log-directory
    flag is never switched back on; the logger only grows. *)
Theorem run_keeps_configuration (cs : list call) w w' :
  run cs w = Ret w' -> keeps (svc w) (svc w').
Proof. intros Hrun. apply changes_keep. eapply run_changes, Hrun. Qed.

(** X10: whatever calls are made, the produced counter is not touched,
    the other counters never decrease, and each histogram keeps its
    boundaries and its earlier observations, in order. *)
Theorem run_metrics_append_only (cs : list call) w w' :
  run cs w = Ret w' -> recorded (svc w) (svc w').
Proof. intros Hrun. apply changes_record. eapply run_changes, Hrun. Qed.

End HistoryFacts.

Lemma demo_run :
  exists w', run demo_calls demo_world = Ret w' /\
    LogDirs_Enabled (Cfg (svc w')) = false /\
    endToEndMessagesAcked (svc w') = Some 1 /\
    endToEndMessagesReceived (svc w') = Some 0 /\
    endToEndMessagesCommitted (svc w') = Some 0 /\
    cache (svc w') = ∅.
Proof. eexists. split; [vm_compute; reflexivity|]. repeat split. Defined.

Lemma run_keeps_configuration_witness :
  exists w', run demo_calls demo_world = Ret w' /\ keeps (svc demo_world) (svc w').
Proof.
  destruct demo_run as (w' & Hrun & _). exists w'. split; [exact Hrun|].
  exact (@run_keeps_configuration string demo_kafka demo_calls demo_world w' Hrun).
Defined.

Lemma run_metrics_append_only_witness :
  exists w', run demo_calls demo_world = Ret w' /\ recorded (svc demo_world) (svc w').
Proof.
  destruct demo_run as (w' & Hrun & _). exists w'. split; [exact Hrun|].
  exact (@run_metrics_append_only string demo_kafka demo_calls demo_world w' Hrun).
Defined.

Section GateAndStartFacts.

Context {Value : Type}.
Context `{Kafka}.

Implicit Types (s : @Service Value).

(** X11: after [ensureCompatibility] the log-directory flag is on exactly
    when it was on and the broker has the key; and a second run against
    the same answer changes nothing more, the logger included. *)
Theorem ensureCompatibility_idempotent s :
  (forall res,
     LogDirs_Enabled (Cfg (ensureCompatibility s (inl res)).1)
     = LogDirs_Enabled (Cfg s) &&
       HasKey (FromApiVersionsResponse res) DescribeLogDirsRequest_Key) /\
  (forall r,
     ensureCompatibility (ensureCompatibility s r).1 r
     = ((ensureCompatibility s r).1, (ensureCompatibility s r).2)).
Proof.
  split.
  - intros res. unfold ensureCompatibility.
    destruct (LogDirs_Enabled (Cfg s)) eqn:E; simpl; [|exact E].
    destruct (HasKey _ _); simpl; [exact E|reflexivity].
  - intros r. destruct r as [res|err]; [|reflexivity].
    destruct (ensureCompatibility s (inl res)) as [s' e] eqn:Hgate. simpl.
    unfold ensureCompatibility in Hgate.
    destruct (LogDirs_Enabled (Cfg s)) eqn:E.
    + destruct (HasKey _ _) eqn:K; simpl in Hgate; injection Hgate as <- <-.
      * now rewrite E.
      * reflexivity.
    + injection Hgate as <- <-. unfold ensureCompatibility. now rewrite E.
Qed.

(** X12: when the version query fails, [Start] launches nothing, leaves
    the service as it was and returns the error wrapped twice; when it
    succeeds, [Start] returns no error and launches the offsets consumer
    exactly in the offsets-topic scrape mode and the end-to-end test
    exactly when it is enabled, in this order. *)
Theorem Start_launches s :
  (forall err,
     Start s (inr err)
     = (s, [],
        Some (Errorf_w "failed to check feature compatibility against Kafka: %w"
                (Errorf_w "kafka api versions couldn't be fetched: %w" err)))) /\
  (forall res,
     Start s (inl res)
     = ((ensureCompatibility s (inl res)).1,
        (if String.eqb (ConsumerGroups_ScrapeMode (Cfg s)) ConsumerGroupScrapeModeOffsetsTopic
         then [startConsumingOffsets] else [])
        ++ (if EndToEnd_Enabled (Cfg s) then [initEndToEnd] else []),
        None)).
Proof.
  split; [reflexivity|].
  intros res. unfold Start, ensureCompatibility.
  destruct (LogDirs_Enabled (Cfg s)); [|reflexivity].
  destruct (negb _); reflexivity.
Qed.

(** X13: the three callbacks write to different metrics, so two different
    callbacks give the same service, or the same panic, in either
    order. *)
Theorem callbacks_commute s (p1 d1 p2 d2 : Z) :
  (s1 ← onAck s p1 d1; onRoundtrip s1 p2 d2)
  = (s1 ← onRoundtrip s p2 d2; onAck s1 p1 d1) /\
  (s1 ← onAck s p1 d1; onOffsetCommit s1 p2 d2)
  = (s1 ← onOffsetCommit s p2 d2; onAck s1 p1 d1) /\
  (s1 ← onRoundtrip s p1 d1; onOffsetCommit s1 p2 d2)
  = (s1 ← onOffsetCommit s p2 d2; onRoundtrip s1 p1 d1).
Proof.
  destruct s as [cfg lg m id ts pr ak rc cm hak hrc hcm].
  unfold onAck, onRoundtrip, onOffsetCommit; cbn -[Seconds].
  repeat split.
  - destruct (d2 >? EndToEnd_Consumer_RoundtripSla cfg) eqn:E2;
      destruct ak, hak, rc, hrc; cbn -[Seconds]; rewrite ?E2; reflexivity.
  - destruct (d2 >? EndToEnd_Consumer_CommitSla cfg) eqn:E2;
      destruct ak, hak, cm, hcm; cbn -[Seconds]; rewrite ?E2; reflexivity.
  - destruct (d1 >? EndToEnd_Consumer_RoundtripSla cfg) eqn:E1;
      destruct (d2 >? EndToEnd_Consumer_CommitSla cfg) eqn:E2;
      destruct rc, hrc, cm, hcm; cbn -[Seconds]; rewrite ?E1, ?E2; reflexivity.
Qed.

End GateAndStartFacts.

(** ** Durations in seconds *)

Lemma to_Q_of_int (n : Z) :
  Z.abs n < 2 ^ 53 ->
  exists q, to_Q (of_int n) = Some q /\ (q == inject_Z n)%Q.
Proof.
  intros Hn.
  assert (Hpow : forall p, Zpos (digits2_pos p) <= 53 ->
            (inject_Z (Zpos (normal_mantissa p)) * 2 ^ (Zpos (digits2_pos p) - 53)
             == inject_Z (Zpos p))%Q).
  { intros p Hd. rewrite normal_mantissa_value by exact Hd.
    rewrite inject_Z_mult, Zpower_Qpower by lia. change (inject_Z 2) with 2%Q.
    rewrite <- Qmult_assoc, <- Qpower_plus by discriminate.
    replace (53 - Zpos (digits2_pos p) + (Zpos (digits2_pos p) - 53)) with 0 by lia.
    change (2 ^ 0)%Q with 1%Q. ring. }
  destruct n as [|p|p].
  - exists 0%Q. split; reflexivity.
  - rewrite of_int_pos by (apply digits2_pos_bound; lia).
    eexists. split; [reflexivity|]. unfold cond_Zopp. apply Hpow, digits2_pos_bound. lia.
  - rewrite of_int_neg by (apply digits2_pos_bound; lia).
    eexists. split; [reflexivity|]. unfold cond_Zopp.
    change (- Zpos (normal_mantissa p)) with (- (1) * Zpos (normal_mantissa p)).
    rewrite inject_Z_mult, <- Qmult_assoc, Hpow by (apply digits2_pos_bound; lia).
    change (Zneg p) with (- (1) * Zpos p). rewrite inject_Z_mult. reflexivity.
Qed.

(** X14: a duration of whole seconds is observed without rounding:
    [Seconds] of [n] seconds is the float64 of the integer [n], whose value
    is [n]. *)
Theorem Seconds_whole (n : Z) :
  min_int64 <= n * Second <= max_int64 ->
  Seconds (n * Second) = of_int n /\
  exists q, to_Q (Seconds (n * Second)) = Some q /\ (q == inject_Z n)%Q.
Proof.
  intros Hn.
  assert (Habs : Z.abs n < 2 ^ 53) by (unfold min_int64, max_int64, Second in Hn; lia).
  assert (Heq : Seconds (n * Second) = of_int n).
  { unfold Seconds. rewrite Z.quot_mul, Z.rem_mul by (unfold Second; lia).
    replace (div (of_int 0) (of_int 1000000000)) with (S754_zero false)
      by (vm_compute; reflexivity).
    destruct n as [|p|p].
    - reflexivity.
    - rewrite of_int_pos by (apply digits2_pos_bound; lia). reflexivity.
    - rewrite of_int_neg by (apply digits2_pos_bound; lia). reflexivity. }
  split; [exact Heq|]. rewrite Heq. apply to_Q_of_int, Habs.
Qed.

Lemma Seconds_whole_witness :
  min_int64 <= 7 * Second <= max_int64 /\
  Seconds (7 * Second) = of_int 7.
Proof.
  split; [unfold min_int64, max_int64, Second; lia|].
  apply (Seconds_whole 7). unfold min_int64, max_int64, Second. lia.
Defined.

(** ** The cache over time *)

Section CacheFacts.

Context {Value : Type}.
Context `{Kafka}.

Implicit Types (s : @Service Value) (w : @World Value).

(** A key with no expiry due keeps its entry. *)
Lemma wake_untouched (t : Z) (sl : list (Z * string)) s (k : string) :
  (forall due, (due, k) ∈ sl -> t < due) ->
  cache (wake t sl s).1 !! k = cache s !! k.
Proof.
  revert s. induction sl as [|[due key] sl IH]; intros s Hsl; simpl; [reflexivity|].
  destruct (due <=? t) eqn:E.
  - rewrite IH by (intros d Hd; apply Hsl, elem_of_cons; now right).
    simpl. apply lookup_delete_ne. intros ->.
    specialize (Hsl due (list_elem_of_here _ _)). lia.
  - specialize (IH s). destruct (wake t sl s) as [s' rest].
    apply IH. intros d Hd. apply Hsl, elem_of_cons. now right.
Qed.

(** The goroutines left asleep are those that were asleep and are not yet
    due. *)
Lemma wake_rest (t : Z) (sl : list (Z * string)) s (x : Z * string) :
  x ∈ (wake t sl s).2 <-> x ∈ sl /\ t < x.1.
Proof.
  revert s. induction sl as [|[due key] sl IH]; intros s; simpl.
  - split; [intros Hx; inversion Hx|intros [Hx _]; inversion Hx].
  - destruct (due <=? t) eqn:E.
    + rewrite IH, elem_of_cons. split; [tauto|].
      intros [[->|Hx] Hlt]; [simpl in Hlt; lia|tauto].
    + specialize (IH s). destruct (wake t sl s) as [s' rest]. simpl in *.
      rewrite !elem_of_cons, IH. split; [|tauto].
      intros [->|[Hx Hlt]]; [|tauto]. split; [now left|simpl; lia].
Qed.

(** An entry that is still there was there before, and no expiry for its
    key was due. *)
Lemma wake_lookup_Some (t : Z) (sl : list (Z * string)) s (k : string) (v : Value) :
  cache (wake t sl s).1 !! k = Some v ->
  cache s !! k = Some v /\ forall due, (due, k) ∈ sl -> t < due.
Proof.
  intros Hv.
  assert (Hdue : forall due, (due, k) ∈ sl -> t < due).
  { intros due Hin. destruct (Z.lt_ge_cases t due) as [Hlt|Hge]; [exact Hlt|].
    rewrite (wake_deletes t sl s k due Hin Hge) in Hv. discriminate. }
  split; [|exact Hdue]. now rewrite wake_untouched in Hv.
Qed.

(** X15: an expiry only removes its own key: while no expiry for [k] is
    due, the passing of time leaves the entry of [k] alone, whatever other
    expiries fire. *)
Theorem advance_keeps_other_keys w (k : string) (t : Z) :
  now w <= t ->
  (forall due, (due, k) ∈ sleeping w -> t < due) ->
  getCachedItem (svc (advance t w)) k = getCachedItem (svc w) k.
Proof.
  intros Ht Hsl. unfold getCachedItem. rewrite advance_svc.
  apply wake_untouched. intros due Hin. specialize (Hsl due Hin). lia.
Qed.

(** X16: the lifetime of an entry.  When no older expiry for the key is
    pending, a value stored with [setCachedItem] is found at every time
    before [timeout] has elapsed and at no time from then on. *)
Theorem cache_entry_lifetime w (k : string) (v : Value) (timeout t : Z) :
  (forall due, (due, k) ∉ sleeping w) ->
  now w <= t ->
  getCachedItem (svc (advance t (setCachedItem w k v timeout))) k
  = if t <? now w + timeout then Some v else None.
Proof.
  intros Hfree Ht. unfold getCachedItem. rewrite advance_svc.
  cbn [now sleeping svc setCachedItem]. rewrite Z.max_l by exact Ht.
  destruct (t <? now w + timeout) eqn:E.
  - apply Z.ltb_lt in E. rewrite wake_untouched.
    + simpl. apply lookup_insert_eq.
    + intros due Hin. apply elem_of_app in Hin. destruct Hin as [Hin|Hin].
      * exfalso. exact (Hfree _ Hin).
      * apply list_elem_of_singleton in Hin. injection Hin as ->. exact E.
  - apply Z.ltb_ge in E. apply wake_deletes with (due := now w + timeout); [|exact E].
    apply elem_of_app. right. apply list_elem_of_singleton. reflexivity.
Qed.

Lemma wake_pending (t : Z) (sl : list (Z * string)) s :
  (forall k, is_Some (cache s !! k) -> exists due, (due, k) ∈ sl) ->
  forall k, is_Some (cache (wake t sl s).1 !! k) -> exists due, (due, k) ∈ (wake t sl s).2.
Proof.
  intros Hinv k [v Hv]. apply wake_lookup_Some in Hv. destruct Hv as [Hv Hdue].
  destruct (Hinv k) as [due Hin]; [eexists; exact Hv|].
  exists due. apply wake_rest. split; [exact Hin|]. simpl. now apply Hdue.
Qed.

Lemma ensureCompatibility_cache s r : cache (ensureCompatibility s r).1 = cache s.
Proof.
  unfold ensureCompatibility. destruct r as [res|err]; [|reflexivity].
  destruct (LogDirs_Enabled (Cfg s)); [|reflexivity].
  destruct (negb _); reflexivity.
Qed.

(** Every entry of the cache has an expiry pending. *)
Lemma reachable_pending w :
  reachable w ->
  forall k, is_Some (cache (svc w) !! k) -> exists due, (due, k) ∈ sleeping w.
Proof.
  intros Hw. induction Hw as [cfg id ns reg s t0 Hnew|c w w' Hw IH Hexec]; intros k.
  - simpl. destruct (NewService_built _ _ _ _ _ Hnew) as (_ & _ & -> & _).
    rewrite lookup_empty. intros [v Hv]. discriminate.
  - destruct c; simpl in Hexec.
    + injection Hexec as <-. simpl. rewrite Start_svc, ensureCompatibility_cache. apply IH.
    + injection Hexec as <-. simpl. rewrite ensureCompatibility_cache. apply IH.
    + injection Hexec as <-. apply IH.
    + injection Hexec as <-. simpl. intros Hk.
      destruct (decide (key = k)) as [->|Hne].
      * eexists. apply elem_of_app. right. apply list_elem_of_singleton. reflexivity.
      * rewrite lookup_insert_ne in Hk by exact Hne.
        destruct (IH k Hk) as [due Hin]. exists due. apply elem_of_app. now left.
    + injection Hexec as <-. simpl. intros Hk. apply IH.
      destruct (decide (key = k)) as [->|Hne].
      * rewrite lookup_delete_eq in Hk. destruct Hk as [v Hv]. discriminate.
      * now rewrite lookup_delete_ne in Hk.
    + destruct (onAck (svc w) partitionId duration) as [s'|] eqn:E; [|discriminate].
      simpl in Hexec. injection Hexec as <-. simpl.
      unfold onAck in E. destruct (endToEndMessagesAcked (svc w)); [|discriminate].
      simpl in E. destruct (endToEndAckLatency (svc w)); [|discriminate].
      simpl in E. injection E as <-. apply IH.
    + destruct (onRoundtrip (svc w) partitionId duration) as [s'|] eqn:E; [|discriminate].
      simpl in Hexec. injection Hexec as <-. simpl.
      unfold onRoundtrip in E. destruct (_ >? _); [injection E as <-; apply IH|].
      destruct (endToEndMessagesReceived (svc w)); [|discriminate].
      simpl in E. destruct (endToEndRoundtripLatency (svc w)); [|discriminate].
      simpl in E. injection E as <-. apply IH.
    + destruct (onOffsetCommit (svc w) partitionId duration) as [s'|] eqn:E; [|discriminate].
      simpl in Hexec. injection Hexec as <-. simpl.
      unfold onOffsetCommit in E. destruct (endToEndCommitLatency (svc w)); [|discriminate].
      simpl in E. destruct (_ >? _); [injection E as <-; apply IH|].
      destruct (endToEndMessagesCommitted (svc w)); [|discriminate].
      simpl in E. injection E as <-. apply IH.
    + injection Hexec as <-. rewrite advance_svc, advance_sleeping.
      apply wake_pending. exact IH.
Qed.

(** X17: in every state the service reaches, each entry of the cache has
    the expiry of some [setCachedItem] for its key still pending. *)
Theorem cached_entries_have_pending_expiry w (k : string) (v : Value) :
  reachable w ->
  getCachedItem (svc w) k = Some v ->
  exists due, (due, k) ∈ sleeping w.
Proof.
  intros Hw Hv. apply (reachable_pending w Hw k). unfold getCachedItem in Hv. now rewrite Hv.
Qed.

(** X18: once the clock has passed every pending expiry, the cache of a
    reachable service is empty and no goroutine is left asleep. *)
Theorem cache_drains w (t : Z) :
  reachable w ->
  (forall due k, (due, k) ∈ sleeping w -> due <= t) ->
  cache (svc (advance t w)) = ∅ /\ sleeping (advance t w) = [].
Proof.
  intros Hw Hdue. rewrite advance_svc, advance_sleeping. split.
  - apply map_eq. intros k. rewrite lookup_empty.
    destruct (cache (svc w) !! k) as [v|] eqn:Hk.
    + destruct (reachable_pending w Hw k) as [due Hin]; [now rewrite Hk|].
      apply wake_deletes with (due := due); [exact Hin|].
      specialize (Hdue due k Hin). lia.
    + now apply wake_absent.
  - destruct (wake _ _ _).2 as [|[due k] rest] eqn:E; [reflexivity|].
    assert (Hin : (due, k) ∈ (wake (Z.max t (now w)) (sleeping w) (svc w)).2)
      by (rewrite E; apply list_elem_of_here).
    apply wake_rest in Hin. destruct Hin as [Hin Hlt]. simpl in Hlt.
    specialize (Hdue due k Hin). lia.
Qed.

End CacheFacts.

Lemma demo_new_reachable : @reachable string demo_kafka demo_world.
Proof.
  apply (@reachable_new string demo_kafka demo_cfg "minion-1" "kminion" fresh_registry).
    vm_compute. reflexivity.
Defined.

Lemma demo_cached_reachable :
  @reachable string demo_kafka (setCachedItem demo_world "k" "v" (120 * Second)).
Proof.
  apply (@reachable_call string demo_kafka
           (CallSetCachedItem "k" "v" (120 * Second)) demo_world).
  - exact demo_new_reachable.
  - reflexivity.
Defined.

Lemma advance_keeps_other_keys_witness :
  let w := setCachedItem (setCachedItem demo_world "a" "1" 10) "b" "2" 100 in
  now w <= 50 /\
  getCachedItem (svc (advance 50 w)) "b" = Some "2".
Proof.
  intros w. split; [simpl; lia|].
  rewrite (advance_keeps_other_keys w "b" 50).
  - reflexivity.
  - simpl. lia.
  - intros due Hin. simpl in Hin.
    apply elem_of_cons in Hin. destruct Hin as [Hin|Hin]; [discriminate Hin|].
    apply list_elem_of_singleton in Hin. injection Hin as ->. lia.
Defined.

Lemma cache_entry_lifetime_witness :
  now demo_world <= 50 /\
  getCachedItem (svc (advance 50 (setCachedItem demo_world "k" "v" 120))) "k" = Some "v" /\
  now demo_world <= 120 /\
  getCachedItem (svc (advance 120 (setCachedItem demo_world "k" "v" 120))) "k" = None.
Proof.
  split; [simpl; lia|]. split.
  - apply (cache_entry_lifetime demo_world "k" "v" 120 50); [|simpl; lia].
    intros due Hin. inversion Hin.
  - split; [simpl; lia|].
    apply (cache_entry_lifetime demo_world "k" "v" 120 120); [|simpl; lia].
    intros due Hin. inversion Hin.
Defined.

Lemma cached_entries_have_pending_expiry_witness :
  getCachedItem (svc (setCachedItem demo_world "k" "v" (120 * Second))) "k" = Some "v" /\
  exists due, (due, "k") ∈ sleeping (setCachedItem demo_world "k" "v" (120 * Second)).
Proof.
  split; [reflexivity|].
  apply (@cached_entries_have_pending_expiry string demo_kafka _ "k" "v" demo_cached_reachable).
  reflexivity.
Defined.

Lemma cache_drains_witness :
  cache (svc (advance (200 * Second) (setCachedItem demo_world "k" "v" (120 * Second)))) = ∅ /\
  sleeping (advance (200 * Second) (setCachedItem demo_world "k" "v" (120 * Second))) = [].
Proof.
  apply (@cache_drains string demo_kafka _ (200 * Second) demo_cached_reachable).
  intros due k Hin. simpl in Hin. apply list_elem_of_singleton in Hin.
  injection Hin as -> _. unfold Second. lia.
Defined.

(** ** Building the service *)

Lemma createHistogramBuckets_panic_message (maxLatency : Z) (msg : string) :
  createHistogramBuckets maxLatency = Panic msg ->
  msg = "ExponentialBuckets needs a positive count".
Proof.
  unfold createHistogramBuckets, prometheus.ExponentialBuckets.
  destruct (_ <? 1); [now intros [= <-]|].
  replace (leb (of_ratio 5 1000) (of_int 0)) with false by (vm_compute; reflexivity).
  replace (leb (of_int 2) (of_int 1)) with false by (vm_compute; reflexivity).
  discriminate.
Qed.

(** Whenever [createHistogramBuckets] returns, the last boundary is at
    least [maxLatency] in seconds. *)
Lemma createHistogramBuckets_last_covers (maxLatency : Z) (buckets : list float64) :
  min_int64 <= maxLatency <= max_int64 ->
  createHistogramBuckets maxLatency = Ret buckets ->
  exists l q, last buckets = Some l /\ to_Q l = Some q /\
    (inject_Z maxLatency / inject_Z Second <= q)%Q.
Proof.
  intros Hd Heq.
  assert (Hcases := createHistogramBuckets_cases maxLatency Hd).
  destruct (Z.abs maxLatency <? 10 * Millisecond) eqn:E;
    [rewrite Hcases in Heq; discriminate|].
  apply Z.ltb_ge in E.
  destruct (Z.le_gt_cases 0 maxLatency) as [H0|H0].
  - destruct (createHistogramBuckets_closed_form maxLatency)
      as (bs & Heq' & Hlen & Hlen3 & Hat); [lia|].
    rewrite Heq in Heq'. injection Heq' as <-.
    destruct (quot_bounds maxLatency) as (Hms & Hk & Hk53); [lia|].
    set (k := Z.quot (Milliseconds maxLatency) 10) in *.
    assert (Hk1 : 1 <= k) by (unfold Millisecond in *; lia).
    assert (Hlog : 0 <= Z.log2 k) by apply Z.log2_nonneg.
    destruct (last buckets) as [l|] eqn:Hl;
      [|apply last_None in Hl; subst buckets; simpl in Hlen3; lia].
    exists l. eexists. split; [reflexivity|].
    rewrite last_lookup in Hl. apply Hat in Hl. subst l. split; [reflexivity|].
    replace (-60 + Z.of_nat (Init.Nat.pred (length buckets))) with (Z.log2 k - 58) by lia.
    apply floor_last_bound; [lia|].
    destruct (Z.log2_spec k) as [_ Hup]; [lia|].
    rewrite <- Z.add_1_r in Hup. unfold Millisecond in *. nia.
  - destruct Hcases as (bs & Heq' & Hlen3 & Hat).
    rewrite Heq in Heq'. injection Heq' as <-.
    destruct (last buckets) as [l|] eqn:Hl;
      [|apply last_None in Hl; subst buckets; simpl in Hlen3; lia].
    exists l. eexists. split; [reflexivity|].
    rewrite last_lookup in Hl. apply Hat in Hl. subst l. split; [reflexivity|].
    apply Qle_trans with 0%Q.
    + apply Qle_shift_div_r; [reflexivity|].
      unfold Qle, Qmult, inject_Z, Second. simpl. lia.
    + apply Qmult_le_0_compat; [unfold Qle, inject_Z; simpl; lia|].
      apply Qpower_0_le. discriminate.
Qed.

Section NewServiceFacts.

Context {Value : Type}.

(** X19: when the storage is there and the end-to-end test is enabled,
    an SLA of less than 10 milliseconds in absolute value makes
    [NewService] panic, whatever the registry answers; on a registry that
    takes every metric the panic is that of [ExponentialBuckets]. *)
Theorem NewService_small_sla_panics (cfg : Config) (id metricNamespace : string)
  (registration : string -> string -> option string) :
  EndToEnd_Enabled cfg = true ->
  Z.abs (EndToEnd_Producer_AckSla cfg) < 10 * Millisecond \/
  Z.abs (EndToEnd_Consumer_RoundtripSla cfg) < 10 * Millisecond \/
  Z.abs (EndToEnd_Consumer_CommitSla cfg) < 10 * Millisecond ->
  (exists msg, @NewService Value cfg None id metricNamespace registration = Panic msg) /\
  ((forall name, registration metricNamespace name = None) ->
   @NewService Value cfg None id metricNamespace registration
   = Panic "ExponentialBuckets needs a positive count").
Proof.
  intros Hen Hsmall.
  assert (Hp : forall d, Z.abs d < 10 * Millisecond ->
            createHistogramBuckets d = Panic "ExponentialBuckets needs a positive count")
    by (intros d Hd; apply createHistogramBuckets_below_10ms; lia).
  split.
  - unfold NewService. rewrite Hen. unfold makeCounter, makeHistogram.
    destruct (registration metricNamespace "messages_produced_total");
      simpl; [eexists; reflexivity|].
    destruct (registration metricNamespace "messages_acked_total");
      simpl; [eexists; reflexivity|].
    destruct (registration metricNamespace "messages_received_total");
      simpl; [eexists; reflexivity|].
    destruct (registration metricNamespace "messages_committed_total");
      simpl; [eexists; reflexivity|].
    destruct (createHistogramBuckets (EndToEnd_Producer_AckSla cfg)) as [b1|m1] eqn:E1;
      simpl; [|eexists; reflexivity].
    destruct (registration metricNamespace "produce_latency_seconds");
      simpl; [eexists; reflexivity|].
    destruct (createHistogramBuckets (EndToEnd_Consumer_RoundtripSla cfg)) as [b2|m2] eqn:E2;
      simpl; [|eexists; reflexivity].
    destruct (registration metricNamespace "roundtrip_latency_seconds");
      simpl; [eexists; reflexivity|].
    destruct (createHistogramBuckets (EndToEnd_Consumer_CommitSla cfg)) as [b3|m3] eqn:E3;
      simpl; [|eexists; reflexivity].
    exfalso. destruct Hsmall as [Hs|[Hs|Hs]].
    + rewrite Hp in E1 by exact Hs. discriminate.
    + rewrite Hp in E2 by exact Hs. discriminate.
    + rewrite Hp in E3 by exact Hs. discriminate.
  - intros Hfresh. unfold NewService. rewrite Hen. unfold makeCounter, makeHistogram.
    rewrite !Hfresh. simpl.
    destruct (createHistogramBuckets (EndToEnd_Producer_AckSla cfg)) as [b1|m1] eqn:E1;
      simpl; [|f_equal; eapply createHistogramBuckets_panic_message, E1].
    destruct (createHistogramBuckets (EndToEnd_Consumer_RoundtripSla cfg)) as [b2|m2] eqn:E2;
      simpl; [|f_equal; eapply createHistogramBuckets_panic_message, E2].
    destruct (createHistogramBuckets (EndToEnd_Consumer_CommitSla cfg)) as [b3|m3] eqn:E3;
      simpl; [|f_equal; eapply createHistogramBuckets_panic_message, E3].
    exfalso. destruct Hsmall as [Hs|[Hs|Hs]].
    + rewrite Hp in E1 by exact Hs. discriminate.
    + rewrite Hp in E2 by exact Hs. discriminate.
    + rewrite Hp in E3 by exact Hs. discriminate.
Qed.

(** X20: a service that [NewService] returns with the end-to-end test
    enabled has its four counters at 0 and its three histograms without
    observations, and the last boundary of each histogram is at least the
    SLA it was sized for, in seconds. *)
Theorem NewService_histograms_cover_sla (cfg : Config) (id metricNamespace : string)
  (registration : string -> string -> option string) (s : @Service Value) :
  NewService cfg None id metricNamespace registration = Ret (inl s) ->
  EndToEnd_Enabled cfg = true ->
  min_int64 <= EndToEnd_Producer_AckSla cfg <= max_int64 ->
  min_int64 <= EndToEnd_Consumer_RoundtripSla cfg <= max_int64 ->
  min_int64 <= EndToEnd_Consumer_CommitSla cfg <= max_int64 ->
  endToEndMessagesProduced s = Some 0 /\
  endToEndMessagesAcked s = Some 0 /\
  endToEndMessagesReceived s = Some 0 /\
  endToEndMessagesCommitted s = Some 0 /\
  covers (endToEndAckLatency s) (EndToEnd_Producer_AckSla cfg) /\
  covers (endToEndRoundtripLatency s) (EndToEnd_Consumer_RoundtripSla cfg) /\
  covers (endToEndCommitLatency s) (EndToEnd_Consumer_CommitSla cfg).
Proof.
  intros Hnew Hen Ha Hr Hc.
  destruct (NewService_built _ _ _ _ _ Hnew) as (_ & _ & _ & _ & Hm).
  rewrite Hen in Hm.
  destruct Hm as (H1 & H2 & H3 & H4 & (b1 & E1 & H5) & (b2 & E2 & H6) & (b3 & E3 & H7)).
  repeat (split; [assumption|]). unfold covers.
  destruct (createHistogramBuckets_last_covers _ _ Ha E1) as (l1 & q1 & L1 & Q1 & B1).
  destruct (createHistogramBuckets_last_covers _ _ Hr E2) as (l2 & q2 & L2 & Q2 & B2).
  destruct (createHistogramBuckets_last_covers _ _ Hc E3) as (l3 & q3 & L3 & Q3 & B3).
  split; [|split].
  - exists (prometheus.mkHistogram b1 []), l1, q1. auto.
  - exists (prometheus.mkHistogram b2 []), l2, q2. auto.
  - exists (prometheus.mkHistogram b3 []), l3, q3. auto.
Qed.

End NewServiceFacts.

Lemma NewService_small_sla_panics_witness :
  let cfg := mkConfig "adminApi" false true (5 * Second) (5 * Millisecond) (1 * Second) in
  EndToEnd_Enabled cfg = true /\
  Z.abs (EndToEnd_Consumer_RoundtripSla cfg) < 10 * Millisecond /\
  (forall name, fresh_registry "kminion" name = None) /\
  @NewService string cfg None "minion-3" "kminion" fresh_registry
  = Panic "ExponentialBuckets needs a positive count".
Proof.
  intros cfg. split; [reflexivity|]. split; [vm_compute; reflexivity|].
  split; [reflexivity|].
  apply (@NewService_small_sla_panics string cfg "minion-3" "kminion" fresh_registry);
    [reflexivity| |reflexivity].
  right. left. vm_compute. reflexivity.
Defined.

Lemma NewService_histograms_cover_sla_witness :
  @NewService string demo_cfg None "minion-1" "kminion" fresh_registry
  = Ret (inl demo_service) /\
  endToEndMessagesAcked demo_service = Some 0 /\
  exists h l q,
    endToEndRoundtripLatency demo_service = Some h /\
    last (prometheus.Buckets h) = Some l /\ to_Q l = Some q /\
    (inject_Z (5 * Second) / inject_Z Second <= q)%Q.
Proof.
  assert (Hnew : @NewService string demo_cfg None "minion-1" "kminion" fresh_registry
                 = Ret (inl demo_service))
    by (vm_compute; reflexivity).
  split; [exact Hnew|].
  destruct (@NewService_histograms_cover_sla string demo_cfg "minion-1" "kminion"
              fresh_registry demo_service Hnew)
    as (_ & Hacked & _ & _ & _ & (h & l & q & Hh & _ & Hl & Hq & Hb) & _);
    [reflexivity|split; vm_compute; discriminate..|].
  split; [exact Hacked|]. exists h, l, q. auto.
Defined.
